(** * Fleet maintenance add-in: record store, status evaluation,
      trigger notifications and reminder-to-work-order conversion.

    Shallow embedding of [src/data.js] (the [DataStore] object and the [app]
    controller that follows it in the same file) and of the [geotab.js]
    integration layer ([GeotabIntegration]).

    Conventions of the embedding.
    - JavaScript numbers that are integers by construction ([parseInt],
      [Math.round], counters) are modelled as [Z]. Costs come from
      [parseFloat] and are summed as they are, so they are IEEE 754 doubles:
      the kernel's [float], with its addition.
    - [String(n)] on an integer is stdpp's [pretty].
    - Object literals with a fixed shape are records; closed sets of strings
      ('overdue', 'High', 'Open', ...) are inductive types; [null] or a
      missing property is [None].
    - The store is a module-level singleton mutated in place; here every
      operation takes the store and returns the new store with its result.
      [_persist] only serialises the four slots to localStorage and never
      changes the in-memory store, so it does not appear in the state. *)

From Stdlib Require Import Ascii PrimFloat.
From stdpp Require Import base list strings pretty.

Local Open Scope Z_scope.

(** ** String helpers of the host language *)

(** The first [n] characters of [pad] repeated; [cur] is what remains of the
    current copy of [pad]. *)
Fixpoint cycle_take (n : nat) (pad cur : string) : string :=
  match n with
  | O => ""
  | S n' =>
      match cur with
      | String c rest => String c (cycle_take n' pad rest)
      | EmptyString =>
          match pad with
          | String c rest => String c (cycle_take n' pad rest)
          | EmptyString => ""
          end
      end
  end.

(** [s.padStart(targetLength, padString)] *)
Definition padStart (targetLength : nat) (padString s : string) : string :=
  if (targetLength <=? String.length s)%nat then s
  else cycle_take (targetLength - String.length s) padString padString +:+ s.

(** [s.startsWith(p)] *)
Definition startsWith (s p : string) : bool := String.prefix p s.

(** [s.includes(sub)] *)
Fixpoint includes (s sub : string) : bool :=
  String.prefix sub s ||
  match s with
  | EmptyString => false
  | String _ rest => includes rest sub
  end.

(** [a || b] on strings: the empty string is falsy. *)
Definition str_or (a b : string) : string :=
  match a with EmptyString => b | _ => a end.

(** [el?.value || dflt]: [None] is a missing element. *)
Definition value_or (v : option string) (dflt : string) : string :=
  match v with Some s => str_or s dflt | None => dflt end.

(** [n || dflt] on the result of [parseInt]: [None] is NaN, and 0 is falsy. *)
Definition num_or (v : option Z) (dflt : Z) : Z :=
  match v with
  | Some 0 => dflt
  | Some n => n
  | None => dflt
  end.

(** [!c] on a number: 0, -0 and NaN are falsy. *)
Definition falsy (c : float) : bool := PrimFloat.eqb c 0%float || is_nan c.

(** ** Data model *)

Inductive TriggerType := Odometer | Interval | Date | EngineHours.
Inductive Priority := High | Medium | Low.
Inductive Status := scheduled | due_soon | overdue.
Inductive WOStatus := Open | InProgress | Completed.

Global Instance TriggerType_eq_dec : EqDecision TriggerType.
Proof. solve_decision. Defined.
Global Instance Priority_eq_dec : EqDecision Priority.
Proof. solve_decision. Defined.
Global Instance Status_eq_dec : EqDecision Status.
Proof. solve_decision. Defined.
Global Instance WOStatus_eq_dec : EqDecision WOStatus.
Proof. solve_decision. Defined.

Module Reminder.

(** The properties of a reminder other than [id]: what [saveReminder]
    builds as [data], plus the [notified] flag that the notification
    pipeline adds later (a missing flag is falsy, hence [false]).
    [vehicles] is missing on the legacy single-vehicle seed records. *)
Record fields := Fields {
  vehicles : option (list string);
  vehicle  : string;
  make     : string;
  task     : string;
  type     : TriggerType;
  priority : Priority;
  assignee : string;
  notes    : string;
  target   : Z;
  warn     : Z;
  current  : Z;
  status   : Status;
  date     : option string;
  notified : bool;
}.

(** [{ id, ...data }]. The [data] that the controller hands to the store
    never carries an [id] of its own, so the [id] of the entity is the one
    the store generates. *)
Record t := Make { id : string; data : fields }.

Definition set_current (x : Z) (r : t) : t :=
  let d := data r in
  Make (id r)
    (Fields (vehicles d) (vehicle d) (make d) (task d) (type d) (priority d)
       (assignee d) (notes d) (target d) (warn d) x (status d) (date d)
       (notified d)).

Definition set_status (s : Status) (r : t) : t :=
  let d := data r in
  Make (id r)
    (Fields (vehicles d) (vehicle d) (make d) (task d) (type d) (priority d)
       (assignee d) (notes d) (target d) (warn d) (current d) s (date d)
       (notified d)).

(** A partial record, as passed to [updateReminder]: [None] is a property
    the caller's object literal does not mention. *)
Record patch := Patch {
  p_vehicles : option (option (list string));
  p_vehicle  : option string;
  p_make     : option string;
  p_task     : option string;
  p_type     : option TriggerType;
  p_priority : option Priority;
  p_assignee : option string;
  p_notes    : option string;
  p_target   : option Z;
  p_warn     : option Z;
  p_current  : option Z;
  p_status   : option Status;
  p_date     : option (option string);
  p_notified : option bool;
}.

Definition empty_patch : patch :=
  Patch None None None None None None None None None None None None None None.

(** [{ notified: true }] *)
Definition notified_true : patch :=
  Patch None None None None None None None None None None None None None
    (Some true).

(** The whole of [data] as a patch, as [saveReminder] passes it when
    editing: every property of [data] except [notified]. *)
Definition patch_of_fields (d : fields) : patch :=
  Patch (Some (vehicles d)) (Some (vehicle d)) (Some (make d))
    (Some (task d)) (Some (type d)) (Some (priority d)) (Some (assignee d))
    (Some (notes d)) (Some (target d)) (Some (warn d)) (Some (current d))
    (Some (status d)) (Some (date d)) None.

(** [{ ...r, ...p }]: shallow overwrite, property by property. *)
Definition merge (r : t) (p : patch) : t :=
  let d := data r in
  Make (id r)
    (Fields
       (default (vehicles d) (p_vehicles p))
       (default (vehicle d) (p_vehicle p))
       (default (make d) (p_make p))
       (default (task d) (p_task p))
       (default (type d) (p_type p))
       (default (priority d) (p_priority p))
       (default (assignee d) (p_assignee p))
       (default (notes d) (p_notes p))
       (default (target d) (p_target p))
       (default (warn d) (p_warn p))
       (default (current d) (p_current p))
       (default (status d) (p_status p))
       (default (date d) (p_date p))
       (default (notified d) (p_notified p))).

(** [Array.isArray(r.vehicles) ? r.vehicles : [r.vehicle]], the vehicle
    list as the controller reads it everywhere. *)
Definition vehicle_list (r : t) : list string :=
  match vehicles (data r) with
  | Some vs => vs
  | None => [vehicle (data r)]
  end.

End Reminder.

Coercion Reminder.data : Reminder.t >-> Reminder.fields.

Module WorkOrder.

(** The properties of a work order other than [id]. [cost] and
    [reminderId] are nullable; [completionDate] only appears once the
    order has been edited. *)
Record fields := Fields {
  vehicle    : string;
  make       : string;
  task       : string;
  status     : WOStatus;
  assignee   : string;
  odo        : string;
  cost       : option float;
  date       : option string;
  notes      : string;
  parts      : string;
  labor      : string;
  reminderId : option string;
  completionDate : option string;
}.

(** [{ id, ...data }] *)
Record t := Make { id : string; data : fields }.

Record patch := Patch {
  p_status   : option WOStatus;
  p_assignee : option string;
  p_odo      : option string;
  p_notes    : option string;
  p_parts    : option string;
  p_labor    : option string;
  p_cost     : option (option float);
  p_completionDate : option (option string);
}.

Definition merge (w : t) (p : patch) : t :=
  let d := data w in
  Make (id w)
    (Fields (vehicle d) (make d) (task d)
       (default (status d) (p_status p))
       (default (assignee d) (p_assignee p))
       (default (odo d) (p_odo p))
       (default (cost d) (p_cost p))
       (date d)
       (default (notes d) (p_notes p))
       (default (parts d) (p_parts p))
       (default (labor d) (p_labor p))
       (reminderId d)
       (default (completionDate d) (p_completionDate p))).

End WorkOrder.

Coercion WorkOrder.data : WorkOrder.t >-> WorkOrder.fields.

(** ** The record store ([DataStore] in data.js) *)

Module DataStore.

Record Store := mkStore {
  _reminders  : list Reminder.t;
  _workOrders : list WorkOrder.t;
  _woCounter  : Z;
  _rCounter   : Z;
}.

(** *** Default seed data (used on first load) *)

Definition seedR (id vehicle make task : string) (ty : TriggerType)
    (st : Status) (current target warn : Z) (prio : Priority)
    (notes assignee : string) (date : option string) : Reminder.t :=
  Reminder.Make id
    (Reminder.Fields None vehicle make task ty prio assignee notes target
       warn current st date false).

Definition DEFAULT_REMINDERS : list Reminder.t :=
  [ seedR "R001" "TRK-041" "2022 Ford F-250" "Oil Change" Odometer overdue
      84312 84000 500 High "Use 5W-30 synthetic" "Mike Torres" None;
    seedR "R002" "VAN-012" "2021 Mercedes Sprinter" "Air Filter" Interval
      due_soon 44850 45000 500 Medium "" "" None;
    seedR "R003" "FLT-088" "2023 Chevy Silverado" "Tire Rotation" Odometer
      due_soon 22800 23000 500 Low "" "" None;
    seedR "R004" "TRK-022" "2020 Ram 2500" "Brake Inspection" Date scheduled
      61200 65000 1000 High "Fleet brake check required by DOT" "Shop B"
      (Some "2026-03-15");
    seedR "R005" "SED-055" "2022 Ford Explorer" "Cabin Filter" Interval
      scheduled 38100 40000 500 Low "" "" None;
    seedR "R006" "TRK-041" "2022 Ford F-250" "Transmission Fluid" Odometer
      overdue 84312 80000 2000 High "Check for leaks during service" "" None ].

Definition seedWO (id vehicle make task : string) (st : WOStatus)
    (assignee odo : string) (cost : option float)
    (date notes parts labor : string)
    : WorkOrder.t :=
  WorkOrder.Make id
    (WorkOrder.Fields vehicle make task st assignee odo cost (Some date) notes
       parts labor None None).

Definition DEFAULT_WORK_ORDERS : list WorkOrder.t :=
  [ seedWO "WO-2023" "VAN-012" "2021 Mercedes Sprinter" "Coolant Flush"
      InProgress "Shop A" "44,200" (Some 280%float) "2026-02-20"
      "Flushing and replacing with OEM spec coolant" "Coolant — $45" "$235";
    seedWO "WO-2022" "FLT-088" "2023 Chevy Silverado" "Brake Pads — Front"
      Completed "Mike Torres" "22,400" (Some 320%float) "2026-02-10"
      "Replaced front brake pads and rotors" "Pads + Rotors — $180" "$140";
    seedWO "WO-2021" "TRK-022" "2020 Ram 2500" "Tire Rotation" Open
      "Unassigned" "61,000" None "2026-02-18" "" "" "" ].

(** The four localStorage slots, already parsed; [None] is a missing key. *)
Record Storage := mkStorage {
  REMINDERS   : option (list Reminder.t);
  WORK_ORDERS : option (list WorkOrder.t);
  WO_COUNTER  : option Z;
  R_COUNTER   : option Z;
}.

Definition init (ls : Storage) : Store :=
  mkStore (default DEFAULT_REMINDERS (REMINDERS ls))
          (default DEFAULT_WORK_ORDERS (WORK_ORDERS ls))
          (default 2024 (WO_COUNTER ls))
          (default 7 (R_COUNTER ls)).

(** The store of a first run: nothing in localStorage. *)
Definition initial_store : Store := init (mkStorage None None None None).

(** *** Reminders *)

(** ['R' + String(counter).padStart(3, '0')] *)
Definition reminder_id (counter : Z) : string :=
  "R" +:+ padStart 3 "0" (pretty counter).

(** [findIndex(r => r.id === id)], [None] for -1. *)
Definition findIndexR (id : string) (rs : list Reminder.t) : option nat :=
  fst <$> list_find (λ r, Reminder.id r = id) rs.

Definition getReminder (s : Store) (id : string) : option Reminder.t :=
  snd <$> list_find (λ r, Reminder.id r = id) (_reminders s).

Definition addReminder (s : Store) (data : Reminder.fields)
    : Store * Reminder.t :=
  let id := reminder_id (_rCounter s) in
  let reminder := Reminder.Make id data in
  (mkStore (reminder :: _reminders s) (_workOrders s) (_woCounter s)
     (_rCounter s + 1),
   reminder).

Definition updateReminder (s : Store) (id : string) (data : Reminder.patch)
    : Store * option Reminder.t :=
  match list_find (λ r, Reminder.id r = id) (_reminders s) with
  | None => (s, None)
  | Some (idx, old) =>
      let new := Reminder.merge old data in
      (mkStore (<[idx := new]> (_reminders s)) (_workOrders s) (_woCounter s)
         (_rCounter s),
       Some new)
  end.

Definition deleteReminder (s : Store) (id : string) : Store * bool :=
  match findIndexR id (_reminders s) with
  | None => (s, false)
  | Some idx =>
      (mkStore (delete idx (_reminders s)) (_workOrders s) (_woCounter s)
         (_rCounter s),
       true)
  end.

(** The status rule written inline in [updateOdometer] (and once more in
    [saveReminder]). *)
Definition recalc_status (odometer target warn : Z) : Status :=
  if odometer >=? target then overdue
  else if target - odometer <=? warn then due_soon
  else scheduled.

(** The body of the [forEach] callback of [updateOdometer]: whether the
    reminder is touched, and what it becomes. *)
Definition odometer_applies (vehicleId : string) (r : Reminder.t) : bool :=
  bool_decide (Reminder.vehicle r = vehicleId) &&
  bool_decide (Reminder.type r ≠ Date).

Definition apply_odometer (odometer : Z) (r : Reminder.t) : Reminder.t :=
  Reminder.set_status
    (recalc_status odometer (Reminder.target r) (Reminder.warn r))
    (Reminder.set_current odometer r).

(** The [forEach] loop with its captured [changed] variable. *)
Fixpoint updateOdometer_loop (vehicleId : string) (odometer : Z)
    (rs : list Reminder.t) (changed : bool) : list Reminder.t * bool :=
  match rs with
  | [] => ([], changed)
  | r :: rest =>
      if odometer_applies vehicleId r then
        let '(rest', changed') := updateOdometer_loop vehicleId odometer rest true in
        (apply_odometer odometer r :: rest', changed')
      else
        let '(rest', changed') := updateOdometer_loop vehicleId odometer rest changed in
        (r :: rest', changed')
  end.

Definition updateOdometer (s : Store) (vehicleId : string) (odometer : Z)
    : Store * bool :=
  let '(rs, changed) := updateOdometer_loop vehicleId odometer (_reminders s) false in
  (mkStore rs (_workOrders s) (_woCounter s) (_rCounter s), changed).

(** *** Work orders *)

(** ['WO-' + (++counter)], given the counter already incremented. *)
Definition work_order_id (counter : Z) : string := "WO-" +:+ pretty counter.

Definition findIndexW (id : string) (ws : list WorkOrder.t) : option nat :=
  fst <$> list_find (λ w, WorkOrder.id w = id) ws.

Definition addWorkOrder (s : Store) (data : WorkOrder.fields)
    : Store * WorkOrder.t :=
  let counter := _woCounter s + 1 in
  let id := work_order_id counter in
  let wo := WorkOrder.Make id data in
  (mkStore (_reminders s) (wo :: _workOrders s) counter (_rCounter s), wo).

Definition updateWorkOrder (s : Store) (id : string) (data : WorkOrder.patch)
    : Store * option WorkOrder.t :=
  match list_find (λ w, WorkOrder.id w = id) (_workOrders s) with
  | None => (s, None)
  | Some (idx, old) =>
      let new := WorkOrder.merge old data in
      (mkStore (_reminders s) (<[idx := new]> (_workOrders s)) (_woCounter s)
         (_rCounter s),
       Some new)
  end.

Definition deleteWorkOrder (s : Store) (id : string) : Store * bool :=
  match findIndexW id (_workOrders s) with
  | None => (s, false)
  | Some idx =>
      (mkStore (_reminders s) (delete idx (_workOrders s)) (_woCounter s)
         (_rCounter s),
       true)
  end.

(** *** Stats helpers *)

(** What [getWOStats] reads from [new Date()]: [getFullYear()] and
    [getMonth()] (0 for January). *)
Record Now := mkNow { getFullYear : Z; getMonth : Z }.

Definition thisMonth (now : Now) : string :=
  pretty (getFullYear now) +:+ "-" +:+ padStart 2 "0" (pretty (getMonth now + 1)).

(** [w.date && w.date.startsWith(thisMonth)] *)
Definition in_month (prefix : string) (w : WorkOrder.t) : bool :=
  match WorkOrder.date w with
  | None => false
  | Some "" => false
  | Some d => startsWith d prefix
  end.

(** [w.cost || 0]: null, 0 and NaN all give 0. *)
Definition cost_or_0 (w : WorkOrder.t) : float :=
  match WorkOrder.cost w with
  | Some c => if falsy c then 0%float else c
  | None => 0%float
  end.

Record WOStats := mkWOStats {
  open : nat; inProgress : nat; completed : nat; spend : float
}.

Definition has_status (st : WOStatus) (w : WorkOrder.t) : bool :=
  bool_decide (WorkOrder.status w = st).

Definition getWOStats (now : Now) (s : Store) : WOStats :=
  let wos := _workOrders s in
  let mtd := List.filter (in_month (thisMonth now)) wos in
  mkWOStats
    (length (List.filter (has_status Open) wos))
    (length (List.filter (has_status InProgress) wos))
    (length (List.filter (has_status Completed) mtd))
    (foldl (λ sum w, PrimFloat.add sum (cost_or_0 w)) 0%float mtd).

(** [[...new Set(reminders.map(r => r.vehicle))]]: first occurrences, in
    order. *)
Fixpoint uniq (seen l : list string) : list string :=
  match l with
  | [] => []
  | x :: rest =>
      if bool_decide (x ∈ seen) then uniq seen rest
      else x :: uniq (x :: seen) rest
  end.

Definition getUniqueVehicles (s : Store) : list string :=
  uniq [] ((λ r : Reminder.t, Reminder.vehicle r) <$> _reminders s).

(** *** Further readers of the store *)

Definition getWorkOrder (s : Store) (id : string) : option WorkOrder.t :=
  snd <$> list_find (λ w, WorkOrder.id w = id) (_workOrders s).

(** The object returned by [getReminderStats]; its properties [overdue] and
    [scheduled] are spelled [n_overdue] and [n_scheduled] here, the plain
    names being those of the statuses. *)
Record ReminderStats := mkReminderStats {
  n_overdue : nat; dueSoon : nat; n_scheduled : nat
}.

Definition reminder_has_status (st : Status) (x : Reminder.t) : bool :=
  bool_decide (Reminder.status x = st).

Definition getReminderStats (s : Store) : ReminderStats :=
  let r := _reminders s in
  mkReminderStats
    (length (List.filter (reminder_has_status overdue) r))
    (length (List.filter (reminder_has_status due_soon) r))
    (length (List.filter (reminder_has_status scheduled) r)).

End DataStore.

(** ** The telemetry and notification layer ([GeotabIntegration]) *)

Module GeotabIntegration.

Import DataStore.

(** [{ High: 0, Medium: 1, Low: 2 }[p]] *)
Definition priorityOrder (p : Priority) : Z :=
  match p with
  | High => 0
  | Medium => 1
  | Low => 2
  end.

(** The comparator handed to [sort]. *)
Definition by_priority (a b : Reminder.t) : Z :=
  priorityOrder (Reminder.priority a) - priorityOrder (Reminder.priority b).

(** [Array.prototype.sort] is stable: an element stays in front of the later
    elements that the comparator does not put strictly before it. *)
Fixpoint insert_sorted {A} (cmp : A → A → Z) (x : A) (l : list A) : list A :=
  match l with
  | [] => [x]
  | y :: rest =>
      if cmp x y <=? 0 then x :: y :: rest
      else y :: insert_sorted cmp x rest
  end.

Definition sort {A} (cmp : A → A → Z) (l : list A) : list A :=
  foldr (insert_sorted cmp) [] l.

(** [r.status === 'overdue' && !r.notified] *)
Definition is_triggered (r : Reminder.t) : bool :=
  bool_decide (Reminder.status r = overdue) && negb (Reminder.notified r).

Definition triggered (s : Store) : list Reminder.t :=
  sort by_priority (List.filter is_triggered (_reminders s)).

(** A call of [window.app.showNotification(r, r.current - r.target)]. *)
Record Notification := mkNotification {
  reminder  : Reminder.t;
  milesOver : Z;
}.

(** [window_app] tells whether [window.app] is defined. The result carries
    the notification raised by this call, if any. *)
Definition _checkForTriggeredReminders (window_app : bool) (s : Store)
    : Store * option Notification :=
  match triggered s with
  | r :: _ =>
      if window_app then
        (fst (updateReminder s (Reminder.id r) Reminder.notified_true),
         Some (mkNotification r (Reminder.current r - Reminder.target r)))
      else (s, None)
  | [] => (s, None)
  end.

(** [k] calls in a row, nothing else touching the store in between; the
    notifications raised, in order. *)
Fixpoint check_times (window_app : bool) (k : nat) (s : Store)
    : Store * list Notification :=
  match k with
  | O => (s, [])
  | S k' =>
      let '(s1, n) := _checkForTriggeredReminders window_app s in
      let '(s2, ns) := check_times window_app k' s1 in
      (s2, option_list n ++ ns)
  end.

(** The synchronous tail of [_pollOdometers]: the readings that arrived are
    applied one by one ([None] is a reading that failed or was empty), then
    the trigger check runs whether or not anything changed. *)
Fixpoint apply_readings (readings : list (string * option Z)) (s : Store)
    (anyChanged : bool) : Store * bool :=
  match readings with
  | [] => (s, anyChanged)
  | (vehicleName, None) :: rest => apply_readings rest s anyChanged
  | (vehicleName, Some odometer) :: rest =>
      let '(s', changed) := updateOdometer s vehicleName odometer in
      apply_readings rest s' (if changed then true else anyChanged)
  end.

Definition poll_tail (window_app : bool) (readings : list (string * option Z))
    (s : Store) : Store * bool * option Notification :=
  let '(s1, anyChanged) := apply_readings readings s false in
  let '(s2, n) := _checkForTriggeredReminders window_app s1 in
  (s2, anyChanged, n).

(** [_pollOdometers] once the requests have settled. [api] tells whether
    [_api] is set, [devices] are the names of the loaded [_vehicles] and
    [fetch] is what the request for a device resolved to ([None] for an
    empty or failed one). Only devices named by [getUniqueVehicles] are
    asked, and with none of them the function returns before the trigger
    check. *)
Definition _pollOdometers (api window_app : bool) (devices : list string)
    (fetch : string → option Z) (s : Store)
    : Store * bool * option Notification :=
  if negb api || bool_decide (devices = []) then (s, false, None)
  else
    let trackedNames := getUniqueVehicles s in
    let trackedDevices :=
      List.filter (λ v, bool_decide (v ∈ trackedNames)) devices in
    match trackedDevices with
    | [] => (s, false, None)
    | _ => poll_tail window_app ((λ d, (d, fetch d)) <$> trackedDevices) s
    end.

(** The click handler that [_startDemoMode] puts on the bell: the first
    overdue reminder is shown, whatever its [notified] flag, and the store
    is not written. *)
Definition demo_bell (window_app : bool) (s : Store) : option Notification :=
  match list_find (λ r : Reminder.t, Reminder.status r = overdue)
          (_reminders s) with
  | Some (_, r) =>
      if window_app
      then Some (mkNotification r (Reminder.current r - Reminder.target r))
      else None
  | None => None
  end.

End GeotabIntegration.

(** ** The controller ([app]) *)

Module App.

Import DataStore.

Definition KNOWN_VEHICLES : list (string * string) :=
  [ ("TRK-041", "2022 Ford F-250");
    ("VAN-012", "2021 Mercedes Sprinter");
    ("FLT-088", "2023 Chevy Silverado");
    ("TRK-022", "2020 Ram 2500");
    ("SED-055", "2022 Ford Explorer");
    ("TRK-099", "2023 Ram 1500");
    ("VAN-031", "2021 Ford Transit") ].

(** [KNOWN_VEHICLES.find(v => v.id === vehicleId)], then its [make] or ''. *)
Definition known_make (vehicleId : string) : string :=
  match list_find (λ v : string * string, fst v = vehicleId) KNOWN_VEHICLES with
  | Some (_, v) => snd v
  | None => ""
  end.

(** What the controller takes from its host: the locale-dependent
    [Number.prototype.toLocaleString] and today's date as
    [new Date().toISOString().split('T')[0]]. *)
Record Host := mkHost {
  toLocaleString : Z → string;
  today : string;
}.

(** The three inputs of the accept dialog; [None] is a missing element. *)
Record AcceptForm := mkAcceptForm {
  accept_assignee : option string;
  accept_date     : option string;
  accept_notes    : option string;
}.

(** The callback of [vehicles.map] in [acceptAndCreateWO]: the object
    literal handed to [DataStore.addWorkOrder]. *)
Definition work_order_data (h : Host) (r : Reminder.t)
    (assignee date notes vehicleId : string) : WorkOrder.fields :=
  WorkOrder.Fields vehicleId (known_make vehicleId) (Reminder.task r) Open
    assignee (toLocaleString h (Reminder.current r)) None (Some date)
    (str_or notes ("Auto-created from reminder " +:+ Reminder.id r))
    "" "" (Some (Reminder.id r)) None.

(** [vehicles.map(vehicleId => DataStore.addWorkOrder({...}))], with the
    store threaded through the calls. *)
Fixpoint create_all (mk : string → WorkOrder.fields) (vehicles : list string)
    (s : Store) : Store * list WorkOrder.t :=
  match vehicles with
  | [] => (s, [])
  | vehicleId :: rest =>
      let '(s1, wo) := addWorkOrder s (mk vehicleId) in
      let '(s2, wos) := create_all mk rest s1 in
      (s2, wo :: wos)
  end.

(** [acceptAndCreateWO]; [pending] is [_pendingNotifReminder]. The result
    is the store, the new [_pendingNotifReminder] and the local list
    [created] ([None] on the early return). Closing the modal, re-rendering
    and the toast only touch the page. *)
Definition acceptAndCreateWO (h : Host) (form : AcceptForm)
    (pending : option Reminder.t) (s : Store)
    : Store * option Reminder.t * option (list WorkOrder.t) :=
  match pending with
  | None => (s, None, None)
  | Some r =>
      let vehicles := Reminder.vehicle_list r in
      let assignee := value_or (accept_assignee form) "Unassigned" in
      let date := value_or (accept_date form) (today h) in
      let notes := value_or (accept_notes form) "" in
      let '(s', created) :=
        create_all (work_order_data h r assignee date notes) vehicles s in
      (s', None, Some created)
  end.


(** The inputs of the reminder dialog as [saveReminder] reads them: text
    inputs already trimmed, numeric inputs already through [parseInt]
    ([None] is NaN or a missing element). *)
Record ReminderForm := mkReminderForm {
  f_task_select : option string;
  f_custom_task : option string;
  f_priority    : option Priority;
  f_assignee    : option string;
  f_notes       : option string;
  f_target      : option Z;
  f_warn        : option Z;
  f_current     : option Z;
  f_date        : option string;
  f_typeText    : option string;
}.

(** [typeMap] with its keys in insertion order. *)
Definition typeMap : list (string * TriggerType) :=
  [ ("Odometer", Odometer); ("Interval", Interval); ("Date", Date);
    ("Hours", EngineHours) ].

Definition triggerType_of (typeText : string) : TriggerType :=
  match list_find (λ kv : string * TriggerType, includes typeText (fst kv) = true)
          typeMap with
  | Some (_, kv) => snd kv
  | None => Odometer
  end.

Inductive SaveOutcome :=
  | NoVehicle        (* 'Please select at least one vehicle' *)
  | NoTask           (* 'Please select a task' *)
  | Updated          (* 'Reminder updated' *)
  | Saved.           (* 'Reminder saved' *)

(** [saveReminder]; [picker] is [_pickerSelected] and [editing] is
    [_editingReminderId]. *)
Definition saveReminder (picker : list string) (editing : option string)
    (form : ReminderForm) (s : Store) : Store * SaveOutcome :=
  match picker with
  | [] => (s, NoVehicle)
  | first :: _ =>
      let task :=
        match f_task_select form with
        | Some "Custom Issue / Repair" => value_or (f_custom_task form) "Custom Task"
        | Some t => t
        | None => ""
        end in
      let priority := default Medium (f_priority form) in
      let assignee := default "" (f_assignee form) in
      let notes := default "" (f_notes form) in
      let target := num_or (f_target form) 0 in
      let warn := num_or (f_warn form) 500 in
      let current := num_or (f_current form) 0 in
      let triggerType := triggerType_of (default "Odometer" (f_typeText form)) in
      match task with
      | "" => (s, NoTask)
      | _ =>
          let status :=
            if bool_decide (triggerType ≠ Date)
            then recalc_status current target warn
            else scheduled in
          let data :=
            Reminder.Fields (Some picker) first (known_make first) task
              triggerType priority assignee notes target warn current status
              (f_date form) false in
          match editing with
          | Some id =>
              (fst (updateReminder s id (Reminder.patch_of_fields data)), Updated)
          | None => (fst (addReminder s data), Saved)
          end
      end
  end.

(** *** The notification banner and the accept dialog *)

(** The controller state these functions touch: the pending reminder and
    whether the banner and the accept dialog are displayed. *)
Record AppState := mkAppState {
  _pendingNotifReminder : option Reminder.t;
  notifBanner : bool;
  acceptModal : bool;
}.

Definition app_start : AppState := mkAppState None false false.

Definition showNotification (a : AppState) (r : Reminder.t) : AppState :=
  mkAppState (Some r) true (acceptModal a).

Definition dismissNotif (a : AppState) : AppState :=
  mkAppState None false (acceptModal a).

(** [openAcceptModal]: [dismissNotif()] runs first, then the guard on
    [_pendingNotifReminder]. *)
Definition openAcceptModal (a : AppState) : AppState :=
  let a1 := dismissNotif a in
  match _pendingNotifReminder a1 with
  | None => a1
  | Some _ => mkAppState (_pendingNotifReminder a1) (notifBanner a1) true
  end.

(** [acceptAndCreateWO] on the controller state: on the early return nothing
    is touched, otherwise the dialog is closed and the pending reminder
    cleared. *)
Definition accept (h : Host) (form : AcceptForm) (a : AppState) (s : Store)
    : Store * AppState * option (list WorkOrder.t) :=
  match _pendingNotifReminder a with
  | None => (s, a, None)
  | Some _ =>
      let '(s', pending, created) :=
        acceptAndCreateWO h form (_pendingNotifReminder a) s in
      (s', mkAppState pending (notifBanner a) false, created)
  end.

(** *** The vehicle picker *)

(** [_pickerSelected.indexOf(id)] *)
Definition indexOf (id : string) (picker : list string) : option nat :=
  fst <$> list_find (λ v, v = id) picker.

Definition _toggleVehicleInPicker (id : string) (picker : list string)
    : list string :=
  match indexOf id picker with
  | None => picker ++ [id]
  | Some idx => delete idx picker
  end.

Definition _removeVehicleFromPicker (id : string) (picker : list string)
    : list string :=
  List.filter (λ v, bool_decide (v ≠ id)) picker.

(** *** Work-order dialogs *)

(** The inputs of the work-order dialogs: text inputs as read ([None] is a
    missing element; [wo_vehicle], [wo_make], [wo_task] and, in the new
    order dialog, assignee, notes, parts and labor are trimmed by the
    caller), [wo_cost] already through [parseFloat] ([None] is a missing
    element, whose value parses to NaN). *)
Record WOForm := mkWOForm {
  wo_vehicle  : option string;
  wo_make     : option string;
  wo_task     : option string;
  wo_assignee : option string;
  wo_odo      : option string;
  wo_cost     : option float;
  wo_date     : option string;
  wo_notes    : option string;
  wo_parts    : option string;
  wo_labor    : option string;
  wo_completion_date : option string;
}.

(** [parseFloat(v) || null]: NaN and 0 both give null. *)
Definition cost_or_null (c : option float) : option float :=
  match c with
  | Some n => if falsy n then None else Some n
  | None => None
  end.

Definition _saveNewWO (h : Host) (form : WOForm) (s : Store)
    : Store * option WorkOrder.t :=
  match value_or (wo_vehicle form) "", value_or (wo_task form) "" with
  | "", _ => (s, None)
  | _, "" => (s, None)
  | vehicle, task =>
      let '(s', wo) :=
        addWorkOrder s
          (WorkOrder.Fields vehicle (value_or (wo_make form) "") task Open
             (value_or (wo_assignee form) "Unassigned")
             (value_or (wo_odo form) "0")
             (cost_or_null (wo_cost form))
             (Some (value_or (wo_date form) (today h)))
             (value_or (wo_notes form) "")
             (value_or (wo_parts form) "")
             (value_or (wo_labor form) "")
             None None) in
      (s', Some wo)
  end.

(** The properties that both [_saveWOEdits] and [_saveAndCompleteWO] copy
    from the dialog. *)
Definition wo_edits (st : option WOStatus) (completionDate : string)
    (form : WOForm) : WorkOrder.patch :=
  WorkOrder.Patch st
    (Some (value_or (wo_assignee form) ""))
    (Some (value_or (wo_odo form) ""))
    (Some (value_or (wo_notes form) ""))
    (Some (value_or (wo_parts form) ""))
    (Some (value_or (wo_labor form) ""))
    (Some (cost_or_null (wo_cost form)))
    (Some (Some completionDate)).

Definition _saveWOEdits (woId : string) (form : WOForm) (s : Store) : Store :=
  fst (updateWorkOrder s woId
         (wo_edits None (value_or (wo_completion_date form) "") form)).

Definition _saveAndCompleteWO (h : Host) (woId : string) (form : WOForm)
    (s : Store) : Store :=
  fst (updateWorkOrder s woId
         (wo_edits (Some Completed)
            (value_or (wo_completion_date form) (today h)) form)).

(** [_updateWO(woId, status)]: [{ status }] *)
Definition _updateWO (woId : string) (status : WOStatus) (s : Store) : Store :=
  fst (updateWorkOrder s woId
         (WorkOrder.Patch (Some status) None None None None None None None)).

End App.

(** ** Operation sequences and specification-side notions *)

Module Spec.

Import DataStore App.

(** The four creating and deleting operations of the store. *)
Inductive op :=
  | AddReminder (data : Reminder.fields)
  | DeleteReminder (id : string)
  | AddWorkOrder (data : WorkOrder.fields)
  | DeleteWorkOrder (id : string).

(** One operation; the id it assigned to a new entity, if it created one. *)
Definition step (s : Store) (o : op) : Store * option string :=
  match o with
  | AddReminder data =>
      let '(s', r) := addReminder s data in (s', Some (Reminder.id r))
  | DeleteReminder id => (fst (deleteReminder s id), None)
  | AddWorkOrder data =>
      let '(s', w) := addWorkOrder s data in (s', Some (WorkOrder.id w))
  | DeleteWorkOrder id => (fst (deleteWorkOrder s id), None)
  end.

(** A sequence of operations; the ids issued, oldest first. *)
Fixpoint run (ops : list op) (s : Store) : Store * list string :=
  match ops with
  | [] => (s, [])
  | o :: rest =>
      let '(s1, i) := step s o in
      let '(s2, ids) := run rest s1 in
      (s2, option_list i ++ ids)
  end.

(** The ids of the entities held by a store. *)
Definition reminder_ids (s : Store) : list string :=
  (λ r, Reminder.id r) <$> _reminders s.

Definition work_order_ids (s : Store) : list string :=
  (λ w, WorkOrder.id w) <$> _workOrders s.

(** [n] characters '0'. *)
Fixpoint zeros (n : nat) : string :=
  match n with
  | O => ""
  | S n' => "0" +:+ zeros n'
  end.

(** The sum of a list of costs: added one after the other, from 0, in the
    order of the list. *)
Definition sum_costs (l : list float) : float := foldl PrimFloat.add 0%float l.

(** The rank of a reminder in the priority order High(0) < Medium(1) < Low(2). *)
Definition rank (r : Reminder.t) : Z :=
  match Reminder.priority r with
  | High => 0
  | Medium => 1
  | Low => 2
  end.

(** The reminders with status 'overdue' and [notified] false, in store
    order. *)
Definition unnotified_overdue (s : Store) : list Reminder.t :=
  List.filter
    (λ r : Reminder.t,
       bool_decide (Reminder.status r = overdue ∧ Reminder.notified r = false))
    (_reminders s).

(** The reminders of one priority, in their order in the list. *)
Definition with_priority (p : Priority) (l : list Reminder.t)
    : list Reminder.t :=
  List.filter (λ r : Reminder.t, bool_decide (Reminder.priority r = p)) l.

(** A list of reminders in priority order: the High ones first, then the
    Medium ones, then the Low ones, each group in its original order. *)
Definition in_priority_order (l : list Reminder.t) : list Reminder.t :=
  with_priority High l ++ with_priority Medium l ++ with_priority Low l.

(** What [updateOdometer] makes of one reminder. *)
Definition after_odometer (v : string) (x : Z) (r : Reminder.t) : Reminder.t :=
  if odometer_applies v r then apply_odometer x r else r.

(** A two-vehicle reminder as [saveReminder] stores it in the store of a
    first run. *)
Definition two_vehicle_form : ReminderForm :=
  mkReminderForm (Some "Oil Change") None (Some High) (Some "") (Some "")
    (Some 90000) (Some 500) (Some 80000) None (Some "Odometer").

Definition two_vehicle_store : Store :=
  fst (saveReminder ["TRK-041"; "VAN-012"] None two_vehicle_form initial_store).



(** The work order's [date] string starts with [prefix]. *)
Definition date_starts_with (prefix : string) (w : WorkOrder.t) : bool :=
  match WorkOrder.date w with
  | Some d => String.prefix prefix d
  | None => false
  end.

(** A month number on two digits. *)
Definition two_digits (m : Z) : string :=
  if m <? 10 then "0" +:+ pretty m else pretty m.

(** The year-month prefix of a date string, "YYYY-MM", for the year and the
    zero-based month that [now] gives. *)
Definition year_month (now : Now) : string :=
  pretty (getFullYear now) +:+ "-" +:+ two_digits (getMonth now + 1).

(** The cost of a work order, null treated as 0. *)
Definition null_as_0 (w : WorkOrder.t) : float :=
  default 0%float (WorkOrder.cost w).

(** The cost of a work order, with null and the numbers that count as false
    (0 and NaN) treated as 0. *)
Definition number_or_0 (w : WorkOrder.t) : float :=
  match WorkOrder.cost w with
  | None => 0%float
  | Some c =>
      if PrimFloat.eqb c 0%float then 0%float
      else if PrimFloat.eqb c c then c else 0%float
  end.

(** A cost as the dialogs store it: null, or a number other than 0 and
    NaN. *)
Definition priced (w : WorkOrder.t) : Prop :=
  match WorkOrder.cost w with
  | None => True
  | Some c => PrimFloat.eqb c 0%float = false ∧ PrimFloat.eqb c c = true
  end.

(** The work orders of a month, whatever their status: those whose [date]
    string starts with the prefix. *)
Definition dated_in (prefix : string) (ws : list WorkOrder.t)
    : list WorkOrder.t :=
  List.filter (date_starts_with prefix) ws.

(** [{ status, completionDate }]: an edit of a work order that touches only
    these two properties. *)
Definition status_and_completion (st : option WOStatus)
    (cd : option (option string)) : WorkOrder.patch :=
  WorkOrder.Patch st None None None None None None cd.

(** A decimal numeral: not empty, and with a leading '0' only when it is
    "0" itself. *)
Definition numeral (p : string) : Prop :=
  p ≠ "" ∧ ∀ rest, p = String "0"%char rest → rest = "".

(** How many reminders, and how many work orders, a sequence creates. *)
Definition adds_reminder (o : op) : bool :=
  match o with AddReminder _ => true | _ => false end.

Definition adds_work_order (o : op) : bool :=
  match o with AddWorkOrder _ => true | _ => false end.

(** The reminders of rank [k], in their order in the list. *)
Definition bucket (k : Z) (l : list Reminder.t) : list Reminder.t :=
  List.filter (λ r, rank r =? k) l.

(** What [updateReminder(id, { notified: true })] makes of one reminder of a
    store whose ids are pairwise distinct. *)
Definition mark_notified (id : string) (x : Reminder.t) : Reminder.t :=
  if bool_decide (Reminder.id x = id)
  then Reminder.merge x Reminder.notified_true
  else x.

(** The reminders with another id than [id]. *)
Definition other_than (id : string) (x : Reminder.t) : bool :=
  negb (bool_decide (Reminder.id x = id)).

End Spec.

(** ** Sessions: the controller and the poller acting on one store *)

Module Session.

Import DataStore GeotabIntegration App.

(** What can happen to the page between two renderings: a dialog is saved,
    a reminder is deleted (and the deletion confirmed), a polling cycle
    settles, the demo bell is clicked, the banner is dismissed or
    accepted. *)
Inductive action :=
  | DoSaveReminder (picker : list string) (editing : option string)
      (form : ReminderForm)
  | DoDeleteReminder (id : string)
  | DoPoll (devices : list string) (fetch : string → option Z)
  | DoBell
  | DoDismissNotif
  | DoOpenAcceptModal
  | DoAccept (h : Host) (form : AcceptForm)
  | DoSaveNewWO (h : Host) (form : WOForm)
  | DoSaveWOEdits (woId : string) (form : WOForm)
  | DoSaveAndCompleteWO (h : Host) (woId : string) (form : WOForm)
  | DoUpdateWO (woId : string) (status : WOStatus).

(** The store, the controller state, and the notifications that polling
    cycles have raised so far, oldest first. *)
Record world := mkWorld {
  store : Store;
  app   : AppState;
  log   : list Notification;
}.

Definition start : world := mkWorld initial_store app_start [].

Definition notify (a : AppState) (n : option Notification) : AppState :=
  match n with
  | Some n => showNotification a (reminder n)
  | None => a
  end.

Definition act (window_app : bool) (w : world) (o : action) : world :=
  match o with
  | DoSaveReminder picker editing form =>
      mkWorld (fst (saveReminder picker editing form (store w))) (app w) (log w)
  | DoDeleteReminder id =>
      mkWorld (fst (deleteReminder (store w) id)) (app w) (log w)
  | DoPoll devices fetch =>
      let '(s', _, n) := _pollOdometers true window_app devices fetch (store w) in
      mkWorld s' (notify (app w) n) (log w ++ option_list n)
  | DoBell => mkWorld (store w) (notify (app w) (demo_bell window_app (store w))) (log w)
  | DoDismissNotif => mkWorld (store w) (dismissNotif (app w)) (log w)
  | DoOpenAcceptModal => mkWorld (store w) (openAcceptModal (app w)) (log w)
  | DoAccept h form =>
      let '(s', a', _) := accept h form (app w) (store w) in
      mkWorld s' a' (log w)
  | DoSaveNewWO h form =>
      mkWorld (fst (_saveNewWO h form (store w))) (app w) (log w)
  | DoSaveWOEdits woId form =>
      mkWorld (_saveWOEdits woId form (store w)) (app w) (log w)
  | DoSaveAndCompleteWO h woId form =>
      mkWorld (_saveAndCompleteWO h woId form (store w)) (app w) (log w)
  | DoUpdateWO woId status =>
      mkWorld (_updateWO woId status (store w)) (app w) (log w)
  end.

Definition session (window_app : bool) (actions : list action) (w : world)
    : world :=
  foldl (act window_app) w actions.

(** The status that goes with the telemetry of a reminder: the rule of
    [updateOdometer] for the numeric trigger types, 'scheduled' for Date. *)
Definition status_of (r : Reminder.t) : Status :=
  if bool_decide (Reminder.type r = Date) then scheduled
  else recalc_status (Reminder.current r) (Reminder.target r) (Reminder.warn r).

(** The [vehicle] property is the first of the vehicle list. *)
Definition primary_first (r : Reminder.t) : Prop :=
  head (Reminder.vehicle_list r) = Some (Reminder.vehicle r).

(** Every reminder id was issued from a counter value below the current
    one and no two reminders share an id; likewise for work orders, whose
    counter is incremented before use. *)
Definition ids_issued (s : Store) : Prop :=
  Forall (λ r : Reminder.t,
            ∃ c, c < _rCounter s ∧ Reminder.id r = reminder_id c)
    (_reminders s) ∧
  NoDup ((λ r : Reminder.t, Reminder.id r) <$> _reminders s) ∧
  Forall (λ w : WorkOrder.t,
            ∃ c, c <= _woCounter s ∧ WorkOrder.id w = work_order_id c)
    (_workOrders s) ∧
  NoDup ((λ w : WorkOrder.t, WorkOrder.id w) <$> _workOrders s).

(** Every reminder that was notified carries an issued id, and whatever
    reminder still carries that id has its [notified] flag set. *)
Definition log_settled (s : Store) (l : list Notification) : Prop :=
  Forall (λ n : Notification,
            (∃ c, c < _rCounter s ∧ Reminder.id (reminder n) = reminder_id c) ∧
            Forall (λ r : Reminder.t,
                      Reminder.id r = Reminder.id (reminder n) →
                      Reminder.notified r = true)
              (_reminders s)) l.

(** The ranks of the statuses, from least to most urgent. *)
Definition urgency (st : Status) : Z :=
  match st with
  | scheduled => 0
  | due_soon => 1
  | overdue => 2
  end.

(** A reminder without the two properties that telemetry writes. *)
Definition without_telemetry (r : Reminder.t) : Reminder.t :=
  Reminder.set_status scheduled (Reminder.set_current 0 r).


(** The invariants that every action keeps. A reminder is sound when its
    status goes with its telemetry and its [vehicle] is the first of its
    vehicle list. *)
Definition sound (r : Reminder.t) : Prop :=
  Reminder.status r = status_of r ∧ primary_first r.

Definition store_ok (s : Store) : Prop :=
  ids_issued s ∧ Forall sound (_reminders s).

Definition log_ok (s : Store) (l : list Notification) : Prop :=
  log_settled s l ∧
  NoDup ((λ n, Reminder.id (reminder n)) <$> l) ∧
  Forall (λ n, 0 <= milesOver n ∧ Reminder.type (reminder n) ≠ Date) l.

Definition invariant (w : world) : Prop :=
  store_ok (store w) ∧ log_ok (store w) (log w).

(** Where a reminder of a later store comes from: an earlier reminder with
    the same id, whose [notified] flag it keeps if set, or a counter value
    that had not been reached. *)
Definition came_from (rc : Z) (old : list Reminder.t) (r' : Reminder.t)
    : Prop :=
  (∃ r : Reminder.t, r ∈ old ∧ Reminder.id r = Reminder.id r' ∧
                     (Reminder.notified r = true → Reminder.notified r' = true)) ∨
  (∃ c, rc <= c ∧ Reminder.id r' = reminder_id c).

Definition evolves (s s' : Store) : Prop :=
  _rCounter s <= _rCounter s' ∧
  Forall (came_from (_rCounter s) (_reminders s)) (_reminders s').

End Session.

(** * Properties *)

Import DataStore GeotabIntegration App Spec.

(** ** Helper lemmas on the host-language strings *)

(** [simpl] exposes the list instance of [fmap]; this puts [<$>] back. *)
Ltac refold_fmap :=
  repeat match goal with
         | |- context [list_fmap ?A ?B ?f ?l] =>
             change (list_fmap A B f l) with (f <$> l)
         end.

Lemma cycle_take_zero (n : nat) (cur : string) :
  cur = "0" ∨ cur = "" → cycle_take n "0" cur = zeros n.
Proof.
  revert cur. induction n as [|n IH]; intros cur Hcur; [done|].
  destruct Hcur as [-> | ->]; simpl; f_equal; apply IH; auto.
Qed.

Lemma padStart_zero (n : nat) (s : string) :
  padStart n "0" s = zeros (n - String.length s) +:+ s.
Proof.
  unfold padStart. destruct (n <=? String.length s)%nat eqn:E.
  - apply Nat.leb_le in E. by replace (n - String.length s)%nat with O by lia.
  - by rewrite cycle_take_zero by auto.
Qed.

(** ** Record store: create, update, delete *)

Lemma list_find_id_None (id : string) (rs : list Reminder.t) :
  id ∉ ((λ r, Reminder.id r) <$> rs) →
  list_find (λ r, Reminder.id r = id) rs = None.
Proof.
  intros Hid. apply list_find_None, Forall_forall. intros r Hr Heq.
  apply Hid. subst id. by apply (list_elem_of_fmap_2 (λ r, Reminder.id r)).
Qed.

Lemma list_find_id_is_Some (id : string) (rs : list Reminder.t) :
  id ∈ ((λ r, Reminder.id r) <$> rs) →
  is_Some (list_find (λ r, Reminder.id r = id) rs).
Proof.
  intros (r & -> & Hr)%list_elem_of_fmap.
  by apply (list_find_elem_of _ _ r).
Qed.

(** C7: an update with an id that no reminder carries returns null and leaves
    the whole store (reminders, work orders, counters) as it was; nothing is
    created. *)
Theorem updateReminder_unknown_id (s : Store) (id : string)
    (data : Reminder.patch) :
  id ∉ reminder_ids s →
  updateReminder s id data = (s, None).
Proof.
  intros Hid. unfold updateReminder.
  by rewrite (list_find_id_None id (_reminders s) Hid).
Qed.

Lemma updateReminder_unknown_id_witness :
  ("R999" ∉ reminder_ids initial_store) ∧
  (updateReminder initial_store "R999" Reminder.notified_true
   = (initial_store, None)).
Proof.
  assert (H : "R999" ∉ reminder_ids initial_store).
  { apply (bool_decide_unpack _). vm_compute. exact I. }
  split; [exact H|]. exact (updateReminder_unknown_id _ _ _ H).
Defined.

(** C8: deleting a reminder never touches the work orders (nor the
    counters), whatever their [reminderId], and answers [true] exactly when
    a reminder with that id was in the store. *)
Theorem deleteReminder_keeps_work_orders (s : Store) (id : string) :
  _workOrders (fst (deleteReminder s id)) = _workOrders s ∧
  _woCounter (fst (deleteReminder s id)) = _woCounter s ∧
  _rCounter (fst (deleteReminder s id)) = _rCounter s ∧
  snd (deleteReminder s id) = bool_decide (id ∈ reminder_ids s).
Proof.
  unfold deleteReminder, findIndexR.
  destruct (decide (id ∈ reminder_ids s)) as [Hin|Hout].
  - destruct (list_find_id_is_Some id (_reminders s) Hin) as [[idx r] ->].
    simpl. by rewrite bool_decide_eq_true_2.
  - rewrite (list_find_id_None id (_reminders s) Hout). simpl.
    by rewrite bool_decide_eq_false_2.
Qed.

(** R001 is accepted, which creates WO-2025 with [reminderId = 'R001'], and
    is then deleted: the work order is still there and still points to
    R001. *)
Example deleteReminder_keeps_back_reference :
  let h := mkHost pretty "2026-02-21" in
  let s1 := fst (fst (acceptAndCreateWO h (mkAcceptForm None None None)
                        (getReminder initial_store "R001") initial_store)) in
  deleteReminder s1 "R001"
  = (mkStore (drop 1 (_reminders s1)) (_workOrders s1) 2025 7, true) ∧
  (λ w : WorkOrder.t, (WorkOrder.id w, WorkOrder.reminderId w))
    <$> _workOrders (fst (deleteReminder s1 "R001"))
  = [("WO-2025", Some "R001"); ("WO-2023", None); ("WO-2022", None);
     ("WO-2021", None)].
Proof. split; reflexivity. Qed.

(** C9: [addReminder] returns the stored entity: its id is 'R' followed by
    the counter padded with zeros to three characters, its other properties
    are those of [data]; it is put in front of the reminders, which are
    otherwise as before; the counter is incremented afterwards. *)
Theorem addReminder_prepends (s : Store) (data : Reminder.fields) :
  let c := _rCounter s in
  let r := snd (addReminder s data) in
  let s' := fst (addReminder s data) in
  Reminder.id r = "R" +:+ zeros (3 - String.length (pretty c)) +:+ pretty c ∧
  Reminder.data r = data ∧
  _reminders s' = r :: _reminders s ∧
  _rCounter s' = c + 1 ∧
  _workOrders s' = _workOrders s ∧
  _woCounter s' = _woCounter s.
Proof.
  simpl. unfold reminder_id. by rewrite padStart_zero.
Qed.

(** ** Telemetry-driven updates *)

Lemma updateOdometer_loop_fst (v : string) (x : Z) (rs : list Reminder.t)
    (c : bool) :
  fst (updateOdometer_loop v x rs c) = after_odometer v x <$> rs.
Proof.
  revert c. induction rs as [|r rs IH]; intros c; [done|].
  simpl. unfold after_odometer at 1.
  destruct (odometer_applies v r).
  - specialize (IH true).
    destruct (updateOdometer_loop v x rs true) as [l b]. simpl in *. by f_equal.
  - specialize (IH c).
    destruct (updateOdometer_loop v x rs c) as [l b]. simpl in *. by f_equal.
Qed.

Lemma updateOdometer_loop_snd (v : string) (x : Z) (rs : list Reminder.t)
    (c : bool) :
  snd (updateOdometer_loop v x rs c) = c || existsb (odometer_applies v) rs.
Proof.
  revert c. induction rs as [|r rs IH]; intros c.
  - simpl. by rewrite orb_false_r.
  - simpl. destruct (odometer_applies v r) eqn:E.
    + specialize (IH true).
      destruct (updateOdometer_loop v x rs true) as [l b]. simpl in *.
      rewrite IH. by rewrite orb_true_r.
    + specialize (IH c).
      destruct (updateOdometer_loop v x rs c) as [l b]. simpl in *. done.
Qed.

Lemma updateOdometer_reminders (s : Store) (v : string) (x : Z) :
  _reminders (fst (updateOdometer s v x)) = after_odometer v x <$> _reminders s.
Proof.
  unfold updateOdometer.
  pose proof (updateOdometer_loop_fst v x (_reminders s) false) as H.
  destruct (updateOdometer_loop v x (_reminders s) false) as [l b]. done.
Qed.

Lemma updateOdometer_changed (s : Store) (v : string) (x : Z) :
  snd (updateOdometer s v x) = existsb (odometer_applies v) (_reminders s).
Proof.
  unfold updateOdometer.
  pose proof (updateOdometer_loop_snd v x (_reminders s) false) as H.
  destruct (updateOdometer_loop v x (_reminders s) false) as [l b]. done.
Qed.

Lemma odometer_applies_true (v : string) (r : Reminder.t) :
  odometer_applies v r = true ↔ Reminder.vehicle r = v ∧ Reminder.type r ≠ Date.
Proof.
  unfold odometer_applies.
  by rewrite andb_true_iff, !bool_decide_eq_true.
Qed.

Lemma odometer_applies_false (v : string) (r : Reminder.t) :
  odometer_applies v r = false ↔ Reminder.vehicle r ≠ v ∨ Reminder.type r = Date.
Proof.
  unfold odometer_applies.
  rewrite andb_false_iff, !bool_decide_eq_false. split.
  - intros [?|H]; [by left|right]. by destruct (Reminder.type r); try done; destruct H.
  - intros [?|H]; [by left|right]. by rewrite H; intros ?.
Qed.

(** The status rule, case by case. *)
Lemma recalc_status_overdue (x target warn : Z) :
  recalc_status x target warn = overdue ↔ x >= target.
Proof.
  unfold recalc_status.
  destruct (Z.geb_spec x target), (Z.leb_spec (target - x) warn);
    split; (done || lia).
Qed.

Lemma recalc_status_due_soon (x target warn : Z) :
  recalc_status x target warn = due_soon ↔ 0 < target - x <= warn.
Proof.
  unfold recalc_status.
  destruct (Z.geb_spec x target), (Z.leb_spec (target - x) warn);
    split; (done || lia).
Qed.

Lemma recalc_status_scheduled (x target warn : Z) :
  recalc_status x target warn = scheduled ↔ x < target ∧ warn < target - x.
Proof.
  unfold recalc_status.
  destruct (Z.geb_spec x target), (Z.leb_spec (target - x) warn);
    split; (done || lia).
Qed.

(** C2, as amended: a reminder that [updateOdometer] touches (its [vehicle]
    is the one reported and its type is not Date) comes out 'due-soon'
    whenever the new reading is strictly below the target and within the
    warning distance, [0 < target - x <= warn]. *)
Theorem updateOdometer_due_soon (s : Store) (v : string) (x : Z) (i : nat)
    (r : Reminder.t) :
  _reminders s !! i = Some r →
  Reminder.vehicle r = v →
  Reminder.type r ≠ Date →
  0 < Reminder.target r - x <= Reminder.warn r →
  ∃ r' : Reminder.t, _reminders (fst (updateOdometer s v x)) !! i = Some r' ∧
        Reminder.id r' = Reminder.id r ∧
        Reminder.current r' = x ∧
        Reminder.status r' = due_soon.
Proof.
  intros Hi Hv Ht Hx.
  exists (apply_odometer x r).
  rewrite updateOdometer_reminders, list_lookup_fmap, Hi. simpl.
  unfold after_odometer.
  rewrite (proj2 (odometer_applies_true v r) (conj Hv Ht)).
  repeat split. simpl. by apply recalc_status_due_soon.
Qed.

Lemma updateOdometer_due_soon_witness :
  ∃ r' : Reminder.t, _reminders (fst (updateOdometer initial_store "TRK-041" 83900)) !! 0%nat
        = Some r' ∧
        Reminder.id r' = "R001" ∧
        Reminder.current r' = 83900 ∧
        Reminder.status r' = due_soon.
Proof.
  refine (updateOdometer_due_soon initial_store "TRK-041" 83900 0
            (seedR "R001" "TRK-041" "2022 Ford F-250" "Oil Change" Odometer
               overdue 84312 84000 500 High "Use 5W-30 synthetic"
               "Mike Torres" None) _ _ _ _).
  - reflexivity.
  - reflexivity.
  - discriminate.
  - simpl. lia.
Defined.

(** C2 as stated fails where [target - current = 0]: the reading 84000
    against the target 84000 with warn 500 satisfies
    [0 <= target - current <= warn], and the reminder comes out overdue. *)
Lemma updateOdometer_due_soon_counterexample :
  ∃ r r' : Reminder.t,
    _reminders initial_store !! 0%nat = Some r ∧
    Reminder.vehicle r = "TRK-041" ∧
    Reminder.type r ≠ Date ∧
    0 <= Reminder.target r - 84000 <= Reminder.warn r ∧
    _reminders (fst (updateOdometer initial_store "TRK-041" 84000)) !! 0%nat
    = Some r' ∧
    Reminder.current r' = 84000 ∧
    Reminder.status r' = overdue ∧
    Reminder.status r' ≠ due_soon.
Proof.
  eexists _, _. split; [reflexivity|]. simpl.
  split; [reflexivity|]. split; [discriminate|]. split; [lia|].
  split; [reflexivity|]. simpl. split; [reflexivity|].
  split; [reflexivity|discriminate].
Qed.

(** C3, as amended: [updateOdometer(v, x)] rewrites exactly the reminders
    whose [vehicle] property is [v] and whose type is not Date: for those,
    [current] becomes [x], [status] is recomputed from [x], [target] and
    [warn], and nothing else changes. Every other reminder is left as it
    was, also when [v] is listed in its [vehicles] at a later position. The
    collection keeps its length and order; work orders and counters are
    untouched. *)
Theorem updateOdometer_primary_vehicle (s : Store) (v : string) (x : Z)
    (i : nat) (r : Reminder.t) :
  _reminders s !! i = Some r →
  _reminders (fst (updateOdometer s v x)) !! i =
    Some (if bool_decide (Reminder.vehicle r = v ∧ Reminder.type r ≠ Date)
          then Reminder.set_status
                 (recalc_status x (Reminder.target r) (Reminder.warn r))
                 (Reminder.set_current x r)
          else r) ∧
  length (_reminders (fst (updateOdometer s v x))) = length (_reminders s) ∧
  _workOrders (fst (updateOdometer s v x)) = _workOrders s.
Proof.
  intros Hi. split; [|split].
  - rewrite updateOdometer_reminders, list_lookup_fmap, Hi. simpl.
    unfold after_odometer. f_equal.
    destruct (odometer_applies v r) eqn:E.
    + apply odometer_applies_true in E. by rewrite bool_decide_eq_true_2.
    + apply odometer_applies_false in E.
      rewrite bool_decide_eq_false_2; [done|]. intros [??]. by destruct E.
  - by rewrite updateOdometer_reminders, length_fmap.
  - unfold updateOdometer.
    by destruct (updateOdometer_loop v x (_reminders s) false).
Qed.

Lemma updateOdometer_primary_vehicle_witness :
  _reminders (fst (updateOdometer two_vehicle_store "TRK-041" 89900)) !! 0%nat
  = Some (Reminder.Make "R007"
            (Reminder.Fields (Some ["TRK-041"; "VAN-012"]) "TRK-041"
               "2022 Ford F-250" "Oil Change" Odometer High "" "" 90000 500
               89900 due_soon None false)).
Proof.
  exact (proj1 (updateOdometer_primary_vehicle two_vehicle_store "TRK-041"
                  89900 0
                  (Reminder.Make "R007"
                     (Reminder.Fields (Some ["TRK-041"; "VAN-012"]) "TRK-041"
                        "2022 Ford F-250" "Oil Change" Odometer High "" ""
                        90000 500 80000 scheduled None false))
                  eq_refl)).
Defined.

(** C3 as stated fails for a vehicle that is not the first of a
    multi-vehicle reminder: VAN-012 is in the [vehicles] of R007, the type
    is Odometer, and a reading for VAN-012 leaves R007 at its old [current]
    and [status]. *)
Lemma updateOdometer_secondary_vehicle_counterexample :
  ∃ r r' : Reminder.t,
    _reminders two_vehicle_store !! 0%nat = Some r ∧
    "VAN-012" ∈ Reminder.vehicle_list r ∧
    Reminder.type r ≠ Date ∧
    _reminders (fst (updateOdometer two_vehicle_store "VAN-012" 95000)) !! 0%nat
    = Some r' ∧
    Reminder.current r' = 80000 ∧
    Reminder.current r' ≠ 95000 ∧
    Reminder.status r' = scheduled ∧
    recalc_status 95000 (Reminder.target r) (Reminder.warn r) = overdue.
Proof.
  eexists _, _. split; [reflexivity|]. simpl.
  split; [apply list_elem_of_further, list_elem_of_here|]. split; [discriminate|].
  split; [reflexivity|]. simpl. split; [reflexivity|].
  split; [discriminate|]. split; reflexivity.
Qed.

(** C4, as amended: the boolean of [updateOdometer(v, x)] is [true] exactly
    when some reminder was rewritten, that is when some reminder has [v] as
    its [vehicle] and a type other than Date, whether or not the rewritten
    values differ from the old ones; when it is [false] the store is
    exactly as before. *)
Theorem updateOdometer_true_iff_rewritten (s : Store) (v : string) (x : Z) :
  (snd (updateOdometer s v x) = true ↔
   ∃ r : Reminder.t, r ∈ _reminders s ∧
                     Reminder.vehicle r = v ∧ Reminder.type r ≠ Date) ∧
  (snd (updateOdometer s v x) = false → fst (updateOdometer s v x) = s).
Proof.
  split.
  - rewrite updateOdometer_changed, existsb_exists. split.
    + intros (r & Hr & Hap). exists r. split; [by apply list_elem_of_In|].
      by apply odometer_applies_true.
    + intros (r & Hr & Hap). exists r. split; [by apply list_elem_of_In|].
      by apply odometer_applies_true.
  - intros Hf.
    assert (Hrs : _reminders (fst (updateOdometer s v x)) = _reminders s).
    { rewrite updateOdometer_reminders.
      rewrite updateOdometer_changed in Hf.
      induction (_reminders s) as [|r rs IH]; [done|].
      simpl in Hf. apply orb_false_iff in Hf as [Hr Hrs].
      simpl. unfold after_odometer at 1. rewrite Hr. f_equal. by apply IH. }
    revert Hrs. unfold updateOdometer.
    destruct (updateOdometer_loop v x (_reminders s) false) as [l b].
    simpl. intros ->. by destruct s.
Qed.

Lemma updateOdometer_true_iff_rewritten_witness :
  fst (updateOdometer initial_store "TRK-999" 1000) = initial_store.
Proof.
  apply (proj2 (updateOdometer_true_iff_rewritten initial_store "TRK-999" 1000)).
  reflexivity.
Defined.

(** C4 as stated fails when the values rewritten are the ones already
    stored: the seed reminders of TRK-041 hold [current = 84312] and the
    status that goes with it, a reading of 84312 leaves every reminder as it
    was, and the call still answers [true]. *)
Lemma updateOdometer_same_value_counterexample :
  _reminders (fst (updateOdometer initial_store "TRK-041" 84312))
  = _reminders initial_store ∧
  snd (updateOdometer initial_store "TRK-041" 84312) = true.
Proof. split; reflexivity. Qed.

(** ** Reminder-to-work-order conversion *)

Lemma create_all_spec (mk : string → WorkOrder.fields) (vs : list string)
    (s : Store) :
  let s' := fst (create_all mk vs s) in
  let created := snd (create_all mk vs s) in
  (λ w, WorkOrder.data w) <$> created = mk <$> vs ∧
  (λ w, WorkOrder.id w) <$> created
    = (λ k, work_order_id (_woCounter s + Z.of_nat k)) <$> seq 1 (length vs) ∧
  _workOrders s' = rev created ++ _workOrders s ∧
  _woCounter s' = _woCounter s + Z.of_nat (length vs) ∧
  _reminders s' = _reminders s ∧
  _rCounter s' = _rCounter s.
Proof.
  revert s. induction vs as [|v vs IH]; intros s.
  - simpl. repeat split. lia.
  - simpl.
    specialize (IH (fst (addWorkOrder s (mk v)))).
    unfold addWorkOrder in *. simpl in *.
    destruct (create_all mk vs _) as [s2 wos]. simpl in *.
    destruct IH as (Hd & Hi & Hw & Hc & Hr & Hrc).
    refold_fmap. split_and!.
    + by rewrite Hd.
    + f_equal. rewrite Hi.
      rewrite <- (fmap_S_seq 1), <- list_fmap_compose.
      apply list_fmap_ext. intros _ k _. simpl. f_equal. lia.
    + rewrite Hw. by rewrite <- app_assoc.
    + lia.
    + done.
    + done.
Qed.





(** ** Work-order statistics *)

Lemma thisMonth_nonempty (now : Now) : thisMonth now ≠ "".
Proof.
  unfold thisMonth. by destruct (pretty (getFullYear now)).
Qed.

Lemma in_month_starts_with (prefix : string) (w : WorkOrder.t) :
  prefix ≠ "" → in_month prefix w = date_starts_with prefix w.
Proof.
  intros Hp. unfold in_month, date_starts_with, startsWith.
  destruct (WorkOrder.date w) as [[|c d]|]; try done.
  by destruct prefix.
Qed.

(** [padStart(2, '0')] on the month number gives the month on two
    digits. *)
Lemma thisMonth_year_month (now : Now) :
  0 <= getMonth now <= 11 → thisMonth now = year_month now.
Proof.
  intros Hm. unfold thisMonth, year_month, two_digits. do 2 f_equal.
  assert (getMonth now = 0 ∨ getMonth now = 1 ∨ getMonth now = 2 ∨
          getMonth now = 3 ∨ getMonth now = 4 ∨ getMonth now = 5 ∨
          getMonth now = 6 ∨ getMonth now = 7 ∨ getMonth now = 8 ∨
          getMonth now = 9 ∨ getMonth now = 10 ∨ getMonth now = 11)
    as H by lia.
  repeat (destruct H as [->|H]; [reflexivity|]). by rewrite H.
Qed.

Lemma month_bucket (now : Now) (ws : list WorkOrder.t) :
  0 <= getMonth now <= 11 →
  List.filter (in_month (thisMonth now)) ws = dated_in (year_month now) ws.
Proof.
  intros Hm. rewrite <- (thisMonth_year_month now Hm). unfold dated_in.
  apply List.filter_ext. intros w.
  apply in_month_starts_with, thisMonth_nonempty.
Qed.

Lemma cost_or_0_number_or_0 (w : WorkOrder.t) : cost_or_0 w = number_or_0 w.
Proof.
  unfold cost_or_0, number_or_0, falsy, is_nan.
  destruct (WorkOrder.cost w) as [c|]; [|done].
  by destruct (PrimFloat.eqb c 0), (PrimFloat.eqb c c).
Qed.

Lemma priced_null_as_0 (w : WorkOrder.t) :
  priced w → number_or_0 w = null_as_0 w.
Proof.
  unfold priced, number_or_0, null_as_0.
  destruct (WorkOrder.cost w) as [c|]; [|done].
  by intros [-> ->].
Qed.

Lemma foldl_cost_or_0 (ws : list WorkOrder.t) (a : float) :
  foldl (λ sum w, PrimFloat.add sum (cost_or_0 w)) a ws
  = foldl PrimFloat.add a (number_or_0 <$> ws).
Proof.
  revert a. induction ws as [|w ws IH]; intros a; [done|].
  simpl. refold_fmap. by rewrite IH, cost_or_0_number_or_0.
Qed.

Lemma spend_as_sum (now : Now) (s : Store) :
  0 <= getMonth now <= 11 →
  spend (getWOStats now s)
  = sum_costs (number_or_0 <$> dated_in (year_month now) (_workOrders s)).
Proof.
  intros Hm. unfold getWOStats, sum_costs. cbn [spend].
  by rewrite foldl_cost_or_0, month_bucket.
Qed.

Lemma completed_as_count (now : Now) (s : Store) :
  0 <= getMonth now <= 11 →
  completed (getWOStats now s)
  = length (List.filter (λ w : WorkOrder.t, bool_decide (WorkOrder.status w = Completed))
              (dated_in (year_month now) (_workOrders s))).
Proof.
  intros Hm. unfold getWOStats. cbn [completed]. by rewrite month_bucket.
Qed.

Lemma filter_filter_length {A} (p q : A → bool) (l : list A) :
  length (List.filter q (List.filter p l))
  = length (List.filter (λ x, p x && q x) l).
Proof.
  induction l as [|x l IH]; [done|]. simpl.
  destruct (p x); simpl; [destruct (q x); simpl|]; by rewrite ?IH.
Qed.

Lemma filter_length_same_image {A} (q : A → bool) (l l' : list A) :
  q <$> l = q <$> l' →
  length (List.filter q l) = length (List.filter q l').
Proof.
  revert l'. induction l as [|x l IH]; intros [|y l'] H; try done.
  simpl in *. injection H as Hq Hl. rewrite Hq.
  destruct (q y); simpl; by rewrite (IH l').
Qed.

Lemma fmap_insert_same_image {A B} (f : A → B) (l : list A) (i : nat) (x y : A) :
  l !! i = Some x → f y = f x → f <$> <[i:=y]> l = f <$> l.
Proof.
  intros Hi Hf. rewrite list_fmap_insert, Hf.
  apply list_insert_id. by rewrite list_lookup_fmap, Hi.
Qed.

(** What an edit by [updateWorkOrder] does to the collection. *)
Lemma updateWorkOrder_same_image {B} (f : WorkOrder.t → B) (s : Store)
    (id : string) (p : WorkOrder.patch) :
  (∀ w, f (WorkOrder.merge w p) = f w) →
  f <$> _workOrders (fst (updateWorkOrder s id p)) = f <$> _workOrders s.
Proof.
  intros Hf. unfold updateWorkOrder.
  destruct (list_find _ (_workOrders s)) as [[idx old]|] eqn:E; [|done].
  apply list_find_Some in E as (Hidx & _ & _). simpl.
  by apply (fmap_insert_same_image f _ idx old).
Qed.

(** The spend reads nothing of a work order but its [date] and its
    [cost]. *)
Lemma spend_same_image (now : Now) (s1 s2 : Store) :
  (λ w : WorkOrder.t, (WorkOrder.date w, WorkOrder.cost w)) <$> _workOrders s1
  = (λ w : WorkOrder.t, (WorkOrder.date w, WorkOrder.cost w)) <$> _workOrders s2 →
  spend (getWOStats now s1) = spend (getWOStats now s2).
Proof.
  unfold getWOStats. cbn [spend]. generalize 0%float as a.
  generalize (_workOrders s2) as l2. generalize (_workOrders s1) as l1.
  induction l1 as [|w1 l1 IH]; intros [|w2 l2] a H; try done.
  simpl in H. injection H as Hd Hc Hl. simpl.
  assert (Hm : in_month (thisMonth now) w1 = in_month (thisMonth now) w2)
    by (unfold in_month; by rewrite Hd).
  assert (Hx : cost_or_0 w1 = cost_or_0 w2)
    by (unfold cost_or_0; by rewrite Hc).
  rewrite Hm. destruct (in_month (thisMonth now) w2); simpl.
  - rewrite Hx. by apply IH.
  - by apply IH.
Qed.

(** The completed count reads nothing of a work order but its [date] and
    its [status]. *)
Lemma completed_same_image (now : Now) (s1 s2 : Store) :
  (λ w : WorkOrder.t, (WorkOrder.date w, WorkOrder.status w)) <$> _workOrders s1
  = (λ w : WorkOrder.t, (WorkOrder.date w, WorkOrder.status w)) <$> _workOrders s2 →
  completed (getWOStats now s1) = completed (getWOStats now s2).
Proof.
  intros H. unfold getWOStats. cbn [completed].
  rewrite !filter_filter_length. apply filter_length_same_image.
  change (λ x : WorkOrder.t, in_month (thisMonth now) x && has_status Completed x)
    with ((λ d : option string * WOStatus,
             match d.1 with
             | None => false
             | Some "" => false
             | Some dt => startsWith dt (thisMonth now)
             end && bool_decide (d.2 = Completed))
          ∘ (λ w : WorkOrder.t, (WorkOrder.date w, WorkOrder.status w))).
  by rewrite !list_fmap_compose, H.
Qed.

(** C10: with the month that [getMonth] gives (0 to 11), the month-to-date
    spend is the sum, in store order, of the costs of all the work orders
    whose [date] string starts with the current year-month prefix
    "YYYY-MM", whatever their status, where null and the numbers that count
    as false are taken as 0; when every stored cost is null or a number
    other than 0 and NaN, as the dialogs store them, that is the sum of the
    costs with null treated as 0. The completed count is the number of work
    orders of that same month bucket whose status is Completed. Editing the
    status and the completion date of a work order leaves the spend as it
    was, and editing the completion date alone leaves the completed count
    as it was. *)
Theorem getWOStats_month_to_date (now : Now) (s : Store) :
  0 <= getMonth now <= 11 →
  spend (getWOStats now s)
  = sum_costs (number_or_0 <$> dated_in (year_month now) (_workOrders s)) ∧
  (Forall priced (_workOrders s) →
   spend (getWOStats now s)
   = sum_costs (null_as_0 <$> dated_in (year_month now) (_workOrders s))) ∧
  completed (getWOStats now s)
  = length (List.filter (λ w : WorkOrder.t, bool_decide (WorkOrder.status w = Completed))
              (dated_in (year_month now) (_workOrders s))) ∧
  (∀ id st cd,
     spend (getWOStats now
              (fst (updateWorkOrder s id (status_and_completion st cd))))
     = spend (getWOStats now s)) ∧
  (∀ id cd,
     completed (getWOStats now
                  (fst (updateWorkOrder s id (status_and_completion None cd))))
     = completed (getWOStats now s)).
Proof.
  intros Hm. split_and!.
  - by apply spend_as_sum.
  - intros Hp. rewrite spend_as_sum by done. f_equal.
    apply list_fmap_ext. intros i w Hw. apply priced_null_as_0.
    apply (proj1 (Forall_forall _ _) Hp).
    apply list_elem_of_lookup_2, list_elem_of_In in Hw.
    unfold dated_in in Hw. apply filter_In in Hw as [Hw _].
    by apply list_elem_of_In.
  - by apply completed_as_count.
  - intros id st cd. apply spend_same_image.
    by apply updateWorkOrder_same_image.
  - intros id cd. apply completed_same_image.
    by apply updateWorkOrder_same_image.
Qed.

Lemma getWOStats_month_to_date_witness :
  0 <= 1 <= 11 ∧
  Forall priced (_workOrders initial_store) ∧
  spend (getWOStats (mkNow 2026 1) initial_store)
  = sum_costs [280%float; 320%float; 0%float].
Proof.
  assert (Hm : 0 <= 1 <= 11) by lia.
  assert (Hp : Forall priced (_workOrders initial_store))
    by (repeat constructor).
  split; [exact Hm|]. split; [exact Hp|].
  exact (proj1 (proj2 (getWOStats_month_to_date (mkNow 2026 1) initial_store Hm))
           Hp).
Defined.

(** In the store of a first run, seen from February 2026, the order in
    progress (280) and the completed one (320) both count towards the
    spend, and only one order is counted as completed. *)
Example getWOStats_seed :
  getWOStats (mkNow 2026 1) initial_store = mkWOStats 1 1 1 600%float.
Proof. reflexivity. Qed.

(** ** Identifiers *)

Lemma pretty_N_go_head (x : N) (s : string) :
  (0 < x)%N →
  ∃ c rest, pretty_N_go x s = String c rest ∧ c ≠ "0"%char.
Proof.
  revert s. induction (N.lt_wf_0 x) as [x _ IH]; intros s Hx.
  rewrite pretty_N_go_step by done.
  destruct (decide (x `div` 10 = 0)%N) as [E|E].
  - rewrite E, pretty_N_go_0. eexists _, _. split; [done|].
    apply N.div_small_iff in E; [|done].
    rewrite N.mod_small by done.
    assert (x = 1 ∨ x = 2 ∨ x = 3 ∨ x = 4 ∨ x = 5 ∨ x = 6
            ∨ x = 7 ∨ x = 8 ∨ x = 9)%N as Hd by lia.
    by repeat (destruct Hd as [->|Hd]; [done|]); subst.
  - apply IH; [by apply N.div_lt|by apply N.neq_0_lt_0].
Qed.

Lemma pretty_Z_numeral (z : Z) : numeral (pretty z).
Proof.
  destruct z as [|p|p].
  - split; [done|]. by intros rest [= <-].
  - change (pretty (Z.pos p)) with (pretty_N_go (N.pos p) "").
    destruct (pretty_N_go_head (N.pos p) "") as (c & rest & -> & Hc); [lia|].
    split; [done|]. intros rest' [= -> _]. done.
  - change (pretty (Z.neg p)) with ("-" +:+ pretty_N_go (N.pos p) "").
    split; [done|]. intros rest. simpl. intros [=].
Qed.

Lemma zeros_app_numeral_inj (n m : nat) (p q : string) :
  numeral p → numeral q → zeros n +:+ p = zeros m +:+ q → p = q.
Proof.
  intros [Hp0 Hp] [Hq0 Hq]. revert m.
  induction n as [|n IH]; intros [|m] H.
  - done.
  - change (p = String "0" (zeros m +:+ q)) in H.
    pose proof (Hp _ H) as Hz.
    destruct m, q; try done; discriminate Hz.
  - change (String "0" (zeros n +:+ p) = q) in H. symmetry in H.
    pose proof (Hq _ H) as Hz.
    destruct n, p; try done; discriminate Hz.
  - change (String "0" (zeros n +:+ p) = String "0" (zeros m +:+ q)) in H.
    injection H as H. by apply (IH m).
Qed.

Lemma reminder_id_inj (a b : Z) : reminder_id a = reminder_id b → a = b.
Proof.
  unfold reminder_id. rewrite !padStart_zero. simpl. intros [= H].
  apply (inj pretty).
  by apply zeros_app_numeral_inj in H; [|apply pretty_Z_numeral..].
Qed.

Lemma work_order_id_inj (a b : Z) : work_order_id a = work_order_id b → a = b.
Proof.
  unfold work_order_id. simpl. intros [= H]. by apply (inj pretty).
Qed.

Lemma reminder_id_ne_work_order_id (a b : Z) : reminder_id a ≠ work_order_id b.
Proof. unfold reminder_id, work_order_id. simpl. intros [=]. Qed.

Lemma step_issued (s : Store) (o : op) :
  snd (step s o) =
    match o with
    | AddReminder _ => Some (reminder_id (_rCounter s))
    | AddWorkOrder _ => Some (work_order_id (_woCounter s + 1))
    | _ => None
    end.
Proof. by destruct o. Qed.

Lemma step_counters (s : Store) (o : op) :
  _rCounter (fst (step s o))
  = _rCounter s + (if adds_reminder o then 1 else 0) ∧
  _woCounter (fst (step s o))
  = _woCounter s + (if adds_work_order o then 1 else 0).
Proof.
  destruct o as [data|id|data|id]; simpl.
  - lia.
  - unfold deleteReminder. destruct (findIndexR id _); simpl; lia.
  - lia.
  - unfold deleteWorkOrder. destruct (findIndexW id _); simpl; lia.
Qed.

Lemma run_cons (o : op) (rest : list op) (s : Store) :
  run (o :: rest) s
  = (fst (run rest (fst (step s o))),
     option_list (snd (step s o)) ++ snd (run rest (fst (step s o)))).
Proof.
  simpl. destruct (step s o) as [s1 i]. simpl.
  by destruct (run rest s1).
Qed.

(** Every id issued by a run is built from a counter value that the run's
    starting store had not reached yet. *)
Lemma run_issued_shape (ops : list op) (s : Store) (id : string) :
  id ∈ snd (run ops s) →
  (∃ c, _rCounter s <= c ∧ id = reminder_id c) ∨
  (∃ c, _woCounter s < c ∧ id = work_order_id c).
Proof.
  revert s. induction ops as [|o rest IH]; intros s.
  - simpl. by intros ?%not_elem_of_nil.
  - rewrite run_cons. simpl. rewrite elem_of_app.
    destruct (step_counters s o) as [Hr Hw].
    intros [Hin|Hin].
    + rewrite step_issued in Hin.
      destruct o; simpl in Hin.
      * apply list_elem_of_singleton in Hin as ->.
        left. eexists. split; [|done]. lia.
      * by apply not_elem_of_nil in Hin.
      * apply list_elem_of_singleton in Hin as ->.
        right. eexists. split; [|done]. lia.
      * by apply not_elem_of_nil in Hin.
    + apply IH in Hin as [(c & Hc & ->)|(c & Hc & ->)].
      * left. exists c. split; [|done]. rewrite Hr in Hc. destruct (adds_reminder o); lia.
      * right. exists c. split; [|done]. rewrite Hw in Hc. destruct (adds_work_order o); lia.
Qed.

Lemma run_NoDup (ops : list op) (s : Store) : NoDup (snd (run ops s)).
Proof.
  revert s. induction ops as [|o rest IH]; intros s.
  - simpl. constructor.
  - rewrite run_cons. simpl. rewrite step_issued.
    destruct (step_counters s o) as [Hr Hw].
    destruct o as [data|id|data|id]; simpl; try apply IH.
    + apply NoDup_cons. split; [|apply IH].
      intros [(c & Hc & Heq)|(c & Hc & Heq)]%run_issued_shape.
      * apply reminder_id_inj in Heq. simpl in *. lia.
      * by apply reminder_id_ne_work_order_id in Heq.
    + apply NoDup_cons. split; [|apply IH].
      intros [(c & Hc & Heq)|(c & Hc & Heq)]%run_issued_shape.
      * symmetry in Heq. by apply reminder_id_ne_work_order_id in Heq.
      * apply work_order_id_inj in Heq. simpl in *. lia.
Qed.

Lemma run_counters (ops : list op) (s : Store) :
  _rCounter (fst (run ops s))
  = _rCounter s + Z.of_nat (length (List.filter adds_reminder ops)) ∧
  _woCounter (fst (run ops s))
  = _woCounter s + Z.of_nat (length (List.filter adds_work_order ops)).
Proof.
  revert s. induction ops as [|o rest IH]; intros s.
  - simpl. lia.
  - rewrite run_cons. simpl fst.
    destruct (IH (fst (step s o))) as [-> ->].
    destruct (step_counters s o) as [-> ->].
    simpl. destruct (adds_reminder o), (adds_work_order o); simpl length; lia.
Qed.

(** C6: whatever sequence of additions and deletions of reminders and work
    orders is run, the ids it assigns are pairwise distinct, from any
    starting store; from the store of a first run they are also distinct
    from the ids of the seed entities. Each counter ends at its starting
    value plus the number of additions of its kind: a deletion never moves
    it. *)
Theorem issued_ids_never_reused (ops : list op) :
  (∀ s, NoDup (snd (run ops s))) ∧
  NoDup (reminder_ids initial_store ++ work_order_ids initial_store
         ++ snd (run ops initial_store)) ∧
  (∀ s, _rCounter (fst (run ops s))
        = _rCounter s + Z.of_nat (length (List.filter adds_reminder ops))) ∧
  (∀ s, _woCounter (fst (run ops s))
        = _woCounter s + Z.of_nat (length (List.filter adds_work_order ops))).
Proof.
  split_and!; [apply run_NoDup| |apply run_counters..].
  change (reminder_ids initial_store) with (reminder_id <$> [1; 2; 3; 4; 5; 6]).
  change (work_order_ids initial_store)
    with (work_order_id <$> [2023; 2022; 2021]).
  apply NoDup_app. split_and!.
  - apply (NoDup_fmap_2_strong reminder_id).
    + intros a b _ _. apply reminder_id_inj.
    + by apply (bool_decide_unpack _).
  - intros id (k & -> & Hk)%list_elem_of_fmap.
    rewrite elem_of_app.
    intros [(k' & Heq & _)%list_elem_of_fmap
           |[(c & Hc & Heq)|(c & Hc & Heq)]%run_issued_shape].
    + by apply reminder_id_ne_work_order_id in Heq.
    + apply reminder_id_inj in Heq. subst c. simpl in Hc.
      repeat (apply elem_of_cons in Hk as [->|Hk]; [lia|]).
      by apply not_elem_of_nil in Hk.
    + by apply reminder_id_ne_work_order_id in Heq.
  - apply NoDup_app. split_and!.
    + apply (NoDup_fmap_2_strong work_order_id).
      * intros a b _ _. apply work_order_id_inj.
      * by apply (bool_decide_unpack _).
    + intros id (k & -> & Hk)%list_elem_of_fmap.
      intros [(c & Hc & Heq)|(c & Hc & Heq)]%run_issued_shape.
      * symmetry in Heq. by apply reminder_id_ne_work_order_id in Heq.
      * apply work_order_id_inj in Heq. subst c. simpl in Hc.
        repeat (apply elem_of_cons in Hk as [->|Hk]; [lia|]).
        by apply not_elem_of_nil in Hk.
    + apply run_NoDup.
Qed.

(** Five reminders are created, the third is deleted, and a sixth gets a
    fresh id: R009 is not handed out again. *)
Example issued_ids_after_delete (d : Reminder.fields) :
  snd (run [AddReminder d; AddReminder d; AddReminder d; DeleteReminder "R009";
            AddReminder d; AddWorkOrder
              (WorkOrder.Fields "" "" "" Open "" "" None None "" "" "" None None);
            DeleteWorkOrder "WO-2025"; AddWorkOrder
              (WorkOrder.Fields "" "" "" Open "" "" None None "" "" "" None None)]
         initial_store)
  = ["R007"; "R008"; "R009"; "R010"; "WO-2025"; "WO-2026"].
Proof. reflexivity. Qed.

(** ** The stable sort by priority *)

Lemma rank_range (r : Reminder.t) : rank r = 0 ∨ rank r = 1 ∨ rank r = 2.
Proof. unfold rank. destruct (Reminder.priority r); simpl; auto. Qed.

Lemma by_priority_rank (a b : Reminder.t) : by_priority a b = rank a - rank b.
Proof.
  unfold by_priority, rank.
  by destruct (Reminder.priority a), (Reminder.priority b).
Qed.

Lemma insert_sorted_front (x : Reminder.t) (l : list Reminder.t) :
  Forall (λ y, rank x <= rank y) l →
  insert_sorted by_priority x l = x :: l.
Proof.
  intros Hl. destruct l as [|y l]; [done|].
  apply Forall_cons in Hl as [Hy _]. simpl.
  rewrite by_priority_rank.
  destruct (Z.leb_spec (rank x - rank y) 0); [done|lia].
Qed.

Lemma insert_sorted_skip (x : Reminder.t) (l1 l2 : list Reminder.t) :
  Forall (λ y, rank y < rank x) l1 →
  insert_sorted by_priority x (l1 ++ l2)
  = l1 ++ insert_sorted by_priority x l2.
Proof.
  induction 1 as [|y l1 Hy _ IH]; [done|]. simpl.
  rewrite by_priority_rank.
  destruct (Z.leb_spec (rank x - rank y) 0); [lia|]. by rewrite IH.
Qed.

Lemma bucket_rank (k : Z) (l : list Reminder.t) :
  Forall (λ y, rank y = k) (bucket k l).
Proof.
  apply Forall_forall. intros y Hy%list_elem_of_In.
  apply filter_In in Hy as [_ Hy]. by apply Z.eqb_eq.
Qed.

Lemma bucket_cons (k : Z) (x : Reminder.t) (l : list Reminder.t) :
  bucket k (x :: l) = if rank x =? k then x :: bucket k l else bucket k l.
Proof. done. Qed.

(** A stable sort on three ranks lists the High reminders, then the Medium
    ones, then the Low ones, each group in its original order. *)
Lemma sort_buckets (l : list Reminder.t) :
  sort by_priority l = bucket 0 l ++ bucket 1 l ++ bucket 2 l.
Proof.
  induction l as [|x l IH]; [done|].
  change (sort by_priority (x :: l))
    with (insert_sorted by_priority x (sort by_priority l)).
  rewrite IH, !bucket_cons.
  pose proof (bucket_rank 0 l) as H0.
  pose proof (bucket_rank 1 l) as H1.
  pose proof (bucket_rank 2 l) as H2.
  destruct (rank_range x) as [Hx|[Hx|Hx]]; rewrite Hx; simpl.
  - apply insert_sorted_front. rewrite !Forall_app. split_and!.
    + eapply Forall_impl; [exact H0|]. simpl. lia.
    + eapply Forall_impl; [exact H1|]. simpl. lia.
    + eapply Forall_impl; [exact H2|]. simpl. lia.
  - rewrite insert_sorted_skip.
    + f_equal. apply insert_sorted_front. rewrite !Forall_app. split.
      * eapply Forall_impl; [exact H1|]. simpl. lia.
      * eapply Forall_impl; [exact H2|]. simpl. lia.
    + eapply Forall_impl; [exact H0|]. simpl. lia.
  - rewrite insert_sorted_skip.
    + f_equal. rewrite insert_sorted_skip.
      * f_equal. apply insert_sorted_front.
        eapply Forall_impl; [exact H2|]. simpl. lia.
      * eapply Forall_impl; [exact H1|]. simpl. lia.
    + eapply Forall_impl; [exact H0|]. simpl. lia.
Qed.

Lemma filter_comm {A} (p q : A → bool) (l : list A) :
  List.filter p (List.filter q l) = List.filter q (List.filter p l).
Proof.
  induction l as [|x l IH]; [done|]. simpl.
  destruct (p x) eqn:Ep, (q x) eqn:Eq; simpl; rewrite ?Ep, ?Eq, ?IH; done.
Qed.

Lemma sort_filter (p : Reminder.t → bool) (l : list Reminder.t) :
  sort by_priority (List.filter p l) = List.filter p (sort by_priority l).
Proof.
  rewrite !sort_buckets, !List.filter_app. unfold bucket.
  by rewrite !(filter_comm p).
Qed.

Lemma insert_sorted_Permutation {A} (cmp : A → A → Z) (x : A) (l : list A) :
  insert_sorted cmp x l ≡ₚ x :: l.
Proof.
  induction l as [|y l IH]; [done|]. simpl.
  destruct (cmp x y <=? 0); [done|].
  rewrite IH. apply Permutation_swap.
Qed.

Lemma sort_Permutation {A} (cmp : A → A → Z) (l : list A) : sort cmp l ≡ₚ l.
Proof.
  induction l as [|x l IH]; [done|].
  change (sort cmp (x :: l)) with (insert_sorted cmp x (sort cmp l)).
  by rewrite insert_sorted_Permutation, IH.
Qed.

(** The front of the sorted list has the least rank. *)
Lemma sort_head_least (l : list Reminder.t) (r : Reminder.t)
    (rest : list Reminder.t) :
  sort by_priority l = r :: rest →
  Forall (λ x, rank r <= rank x) l.
Proof.
  intros Hs. apply Forall_forall. intros x Hx.
  rewrite sort_buckets in Hs.
  pose proof (bucket_rank 0 l) as H0.
  pose proof (bucket_rank 1 l) as H1.
  pose proof (bucket_rank 2 l) as H2.
  assert (Hin : ∀ k, rank x = k → x ∈ bucket k l).
  { intros k Hk. apply list_elem_of_In, filter_In.
    split; [by apply list_elem_of_In|by apply Z.eqb_eq]. }
  destruct (bucket 0 l) as [|a l0] eqn:E0.
  - destruct (bucket 1 l) as [|b l1] eqn:E1.
    + simpl in Hs. rewrite Hs in H2. apply Forall_cons in H2 as [Hr _].
      destruct (rank_range x) as [Hx0|[Hx1|Hx2]].
      * apply Hin in Hx0. rewrite E0 in Hx0. by apply not_elem_of_nil in Hx0.
      * apply Hin in Hx1. rewrite E1 in Hx1. by apply not_elem_of_nil in Hx1.
      * lia.
    + simpl in Hs. injection Hs as -> _.
      apply Forall_cons in H1 as [Hr _].
      destruct (rank_range x) as [Hx0|[Hx1|Hx2]]; [|lia..].
      apply Hin in Hx0. rewrite E0 in Hx0. by apply not_elem_of_nil in Hx0.
  - simpl in Hs. injection Hs as -> _.
    apply Forall_cons in H0 as [Hr _].
    destruct (rank_range x) as [?|[?|?]]; lia.
Qed.

(** ** The trigger check *)

Lemma merge_id (x : Reminder.t) (p : Reminder.patch) :
  Reminder.id (Reminder.merge x p) = Reminder.id x.
Proof. done. Qed.

Lemma mark_notified_id (id : string) (x : Reminder.t) :
  Reminder.id (mark_notified id x) = Reminder.id x.
Proof. unfold mark_notified. by case_bool_decide. Qed.

(** With pairwise distinct ids, the in-place replacement of the first
    reminder that carries the id is a pointwise map. *)
Lemma updateReminder_notified (s : Store) (r : Reminder.t) :
  NoDup (reminder_ids s) →
  r ∈ _reminders s →
  fst (updateReminder s (Reminder.id r) Reminder.notified_true)
  = mkStore (mark_notified (Reminder.id r) <$> _reminders s)
      (_workOrders s) (_woCounter s) (_rCounter s).
Proof.
  intros Hnd Hr. unfold updateReminder.
  destruct (list_find_id_is_Some (Reminder.id r) (_reminders s))
    as [[idx old] E].
  { by apply (list_elem_of_fmap_2 (λ r, Reminder.id r)). }
  rewrite E. simpl. f_equal.
  apply list_find_Some in E as (Hidx & Hold & _).
  apply list_eq. intros i.
  rewrite list_lookup_fmap.
  destruct (decide (i = idx)) as [->|Hne].
  - rewrite list_lookup_insert_eq by (by eapply lookup_lt_Some).
    rewrite Hidx. simpl. unfold mark_notified.
    by rewrite bool_decide_eq_true_2.
  - rewrite list_lookup_insert_ne by done.
    destruct (_reminders s !! i) as [x|] eqn:Hi; [|done]. simpl.
    unfold mark_notified. rewrite bool_decide_eq_false_2; [done|].
    intros Hx. apply Hne.
    apply (NoDup_lookup (reminder_ids s) i idx (Reminder.id r)); [done|..].
    + unfold reminder_ids. by rewrite list_lookup_fmap, Hi; simpl; rewrite Hx.
    + unfold reminder_ids. by rewrite list_lookup_fmap, Hidx; simpl; rewrite Hold.
Qed.

Lemma other_than_same (x : Reminder.t) : other_than (Reminder.id x) x = false.
Proof. unfold other_than. by rewrite bool_decide_eq_true_2. Qed.

Lemma other_than_other (id : string) (x : Reminder.t) :
  Reminder.id x ≠ id → other_than id x = true.
Proof. intros H. unfold other_than. by rewrite bool_decide_eq_false_2. Qed.

Lemma is_triggered_notified (x : Reminder.t) :
  is_triggered (Reminder.merge x Reminder.notified_true) = false.
Proof. unfold is_triggered. simpl. apply andb_false_r. Qed.

Lemma filter_triggered_mark (id : string) (l : list Reminder.t) :
  List.filter is_triggered (mark_notified id <$> l)
  = List.filter (other_than id) (List.filter is_triggered l).
Proof.
  induction l as [|x l IH]; [done|]. simpl. refold_fmap. rewrite IH.
  unfold mark_notified.
  destruct (decide (Reminder.id x = id)) as [<-|Hx].
  - rewrite bool_decide_eq_true_2 by done. rewrite is_triggered_notified.
    destruct (is_triggered x); [|done]. simpl. by rewrite other_than_same.
  - rewrite bool_decide_eq_false_2 by done.
    destruct (is_triggered x); [|done]. simpl. by rewrite other_than_other.
Qed.

Lemma NoDup_ids_filter (p : Reminder.t → bool) (l : list Reminder.t) :
  NoDup ((λ r, Reminder.id r) <$> l) →
  NoDup ((λ r, Reminder.id r) <$> List.filter p l).
Proof.
  induction l as [|x l IH]; [done|].
  rewrite fmap_cons, NoDup_cons. intros [Hx Hl]. simpl.
  destruct (p x); [|by apply IH].
  rewrite fmap_cons, NoDup_cons. split; [|by apply IH].
  intros (y & Hy & Hin)%list_elem_of_fmap. apply Hx.
  apply list_elem_of_fmap. exists y. split; [done|].
  apply list_elem_of_In. apply list_elem_of_In in Hin.
  by apply filter_In in Hin as [? _].
Qed.

Lemma filter_other_than_id (id : string) (l : list Reminder.t) :
  id ∉ ((λ r, Reminder.id r) <$> l) → List.filter (other_than id) l = l.
Proof.
  induction l as [|x l IH]; [done|].
  rewrite fmap_cons, not_elem_of_cons. intros [Hx Hl]. simpl.
  rewrite other_than_other by done. f_equal. by apply IH.
Qed.

Lemma triggered_NoDup (s : Store) :
  NoDup (reminder_ids s) →
  NoDup ((λ r, Reminder.id r) <$> triggered s).
Proof.
  intros Hnd. unfold triggered.
  rewrite sort_Permutation. by apply NoDup_ids_filter.
Qed.

(** One call on a store with a triggered reminder in front: the reminder is
    marked, and what remains to be notified is the rest of the sorted
    list. *)
Lemma check_step (s : Store) (r : Reminder.t) (rest : list Reminder.t) :
  NoDup (reminder_ids s) →
  triggered s = r :: rest →
  let s' := fst (updateReminder s (Reminder.id r) Reminder.notified_true) in
  _checkForTriggeredReminders true s
  = (s', Some (mkNotification r (Reminder.current r - Reminder.target r))) ∧
  triggered s' = rest ∧
  reminder_ids s' = reminder_ids s ∧
  _reminders s' = mark_notified (Reminder.id r) <$> _reminders s ∧
  _workOrders s' = _workOrders s.
Proof.
  intros Hnd Ht. simpl.
  assert (Hr : r ∈ _reminders s).
  { assert (Hin : r ∈ triggered s) by (rewrite Ht; apply list_elem_of_here).
    unfold triggered in Hin. rewrite sort_Permutation in Hin.
    apply list_elem_of_In, filter_In in Hin as [Hin _].
    by apply list_elem_of_In. }
  rewrite (updateReminder_notified s r Hnd Hr).
  split_and!.
  - unfold _checkForTriggeredReminders. rewrite Ht.
    by rewrite (updateReminder_notified s r Hnd Hr).
  - unfold triggered in *. simpl.
    rewrite filter_triggered_mark, sort_filter, Ht. simpl.
    rewrite other_than_same.
    apply filter_other_than_id.
    pose proof (triggered_NoDup s Hnd) as Hnd'.
    unfold triggered in Hnd'. rewrite Ht, fmap_cons in Hnd'.
    by apply NoDup_cons in Hnd' as [? _].
  - unfold reminder_ids. simpl. rewrite <- list_fmap_compose.
    apply list_fmap_ext. intros _ x _. simpl. apply mark_notified_id.
  - done.
  - done.
Qed.

Lemma check_idle (s : Store) :
  triggered s = [] → _checkForTriggeredReminders true s = (s, None).
Proof. intros Ht. unfold _checkForTriggeredReminders. by rewrite Ht. Qed.

(** [k] calls in a row notify the first [k] reminders of the sorted list and
    leave the others to be notified. *)
Lemma check_times_spec (k : nat) (s : Store) :
  NoDup (reminder_ids s) →
  reminder <$> snd (check_times true k s) = take k (triggered s) ∧
  Forall (λ n, milesOver n
               = Reminder.current (reminder n) - Reminder.target (reminder n))
    (snd (check_times true k s)) ∧
  triggered (fst (check_times true k s)) = drop k (triggered s) ∧
  reminder_ids (fst (check_times true k s)) = reminder_ids s ∧
  _workOrders (fst (check_times true k s)) = _workOrders s.
Proof.
  revert s. induction k as [|k IH]; intros s Hnd; [by simpl|].
  simpl. destruct (triggered s) as [|r rest] eqn:Ht.
  - rewrite (check_idle s Ht).
    destruct (IH s Hnd) as (H1 & H2 & H3 & H4 & H5).
    destruct (check_times true k s) as [s2 ns]. simpl in *.
    rewrite Ht in H1, H3. rewrite take_nil in H1. rewrite drop_nil in H3.
    refold_fmap. done.
  - destruct (check_step s r rest Hnd Ht) as (-> & Hrest & Hids & _ & Hwo).
    set (s1 := fst (updateReminder s (Reminder.id r) Reminder.notified_true)) in *.
    assert (Hnd1 : NoDup (reminder_ids s1)) by (by rewrite Hids).
    destruct (IH s1 Hnd1) as (H1 & H2 & H3 & H4 & H5).
    destruct (check_times true k s1) as [s2 ns]. simpl in *. refold_fmap.
    split_and!.
    + by rewrite H1, Hrest.
    + by apply Forall_cons.
    + by rewrite H3, Hrest.
    + by rewrite H4.
    + by rewrite H5.
Qed.

(** The filter of the trigger check keeps the reminders that are overdue
    and not notified. *)
Lemma unnotified_overdue_eq (s : Store) :
  unnotified_overdue s = List.filter is_triggered (_reminders s).
Proof.
  unfold unnotified_overdue. apply List.filter_ext. intros r.
  unfold is_triggered.
  destruct (Reminder.notified r); repeat case_bool_decide; simpl;
    intuition congruence.
Qed.

Lemma triggered_length (s : Store) :
  length (triggered s) = length (unnotified_overdue s).
Proof. unfold triggered. by rewrite unnotified_overdue_eq, sort_Permutation. Qed.

Lemma triggered_elem_of (s : Store) (r : Reminder.t) :
  r ∈ triggered s ↔ r ∈ unnotified_overdue s.
Proof. unfold triggered. by rewrite unnotified_overdue_eq, sort_Permutation. Qed.

Lemma bucket_with_priority (l : list Reminder.t) :
  bucket 0 l = with_priority High l ∧
  bucket 1 l = with_priority Medium l ∧
  bucket 2 l = with_priority Low l.
Proof.
  unfold bucket, with_priority, rank.
  split_and!; apply List.filter_ext; intros r;
    by destruct (Reminder.priority r).
Qed.

(** The sorted list of the trigger check is the list of the overdue,
    unnotified reminders in priority order. *)
Lemma triggered_in_priority_order (s : Store) :
  triggered s = in_priority_order (unnotified_overdue s).
Proof.
  unfold triggered, in_priority_order.
  rewrite sort_buckets, <- unnotified_overdue_eq.
  by destruct (bucket_with_priority (unnotified_overdue s)) as (-> & -> & ->).
Qed.

(** C1, as amended: in a store whose reminder ids are pairwise distinct,
    [k] trigger checks in a row raise one notification per call for as long
    as an overdue, unnotified reminder is left, [min k N] in total: the
    reminders notified are the first [k] of the overdue, unnotified ones in
    priority order (High before Medium before Low, store order within a
    priority), so the first call notifies a reminder of least rank, no
    reminder is notified twice, each notification carries
    [current - target], and once all [N] have been notified every further
    call raises nothing. *)
Theorem check_times_one_per_call (k : nat) (s : Store) :
  NoDup (reminder_ids s) →
  let ns := snd (check_times true k s) in
  let s' := fst (check_times true k s) in
  let N := length (unnotified_overdue s) in
  reminder <$> ns = take k (in_priority_order (unnotified_overdue s)) ∧
  length ns = (k `min` N)%nat ∧
  NoDup ((λ n, Reminder.id (reminder n)) <$> ns) ∧
  Forall (λ n, reminder n ∈ unnotified_overdue s ∧
               milesOver n
               = Reminder.current (reminder n) - Reminder.target (reminder n))
    ns ∧
  match ns with
  | n :: _ => Forall (λ x, rank (reminder n) <= rank x) (unnotified_overdue s)
  | [] => True
  end ∧
  length (unnotified_overdue s') = (N - k)%nat ∧
  (∀ j, length (snd (check_times true j s')) = (j `min` (N - k))%nat).
Proof.
  intros Hnd. simpl.
  destruct (check_times_spec k s Hnd) as (Hns & Hover & Hleft & Hids & _).
  rewrite <- triggered_in_priority_order.
  assert (Hlen : length (snd (check_times true k s))
                 = (k `min` length (unnotified_overdue s))%nat).
  { rewrite <- (length_fmap reminder), Hns, length_take, triggered_length. lia. }
  assert (Hleft' : length (unnotified_overdue (fst (check_times true k s)))
                   = (length (unnotified_overdue s) - k)%nat).
  { by rewrite <- triggered_length, Hleft, length_drop, triggered_length. }
  split_and!; try done.
  - change (λ n, Reminder.id (reminder n))
      with ((λ r, Reminder.id r) ∘ reminder).
    rewrite list_fmap_compose, Hns, fmap_take.
    eapply sublist_NoDup; [|apply sublist_take].
    by apply triggered_NoDup.
  - apply Forall_forall. intros n Hn. split.
    + apply triggered_elem_of.
      apply (list_elem_of_fmap_2 reminder) in Hn. rewrite Hns in Hn.
      apply elem_of_take in Hn as (i & Hi & _).
      by eapply list_elem_of_lookup_2.
    + by apply (proj1 (Forall_forall _ _) Hover).
  - destruct (snd (check_times true k s)) as [|n ns] eqn:E; [done|].
    rewrite fmap_cons in Hns.
    destruct k as [|k]; [done|].
    destruct (triggered s) as [|r rest] eqn:Ht; [done|].
    simpl in Hns. injection Hns as -> _.
    rewrite unnotified_overdue_eq. by apply (sort_head_least _ _ rest).
  - intros j.
    assert (Hnd' : NoDup (reminder_ids (fst (check_times true k s))))
      by (by rewrite Hids).
    destruct (check_times_spec j _ Hnd') as (Hj & _).
    rewrite <- (length_fmap reminder), Hj, length_take, triggered_length,
      Hleft'. lia.
Qed.

Lemma check_times_one_per_call_witness :
  NoDup (reminder_ids initial_store) ∧
  length (snd (check_times true 3 initial_store))
  = (3 `min` length (unnotified_overdue initial_store))%nat.
Proof.
  assert (H : NoDup (reminder_ids initial_store)).
  { apply (bool_decide_unpack _). vm_compute. exact I. }
  split; [exact H|].
  exact (proj1 (proj2 (check_times_one_per_call 3 initial_store H))).
Defined.

(** C1 as stated fails as soon as two reminders are overdue and unnotified:
    the store of a first run holds two of them (R001 and R006, both High),
    and two checks in a row raise two notifications, the second call raising
    the one for R006. *)
Lemma check_times_counterexample :
  length (unnotified_overdue initial_store) = 2%nat ∧
  (λ n, Reminder.id (reminder n)) <$> snd (check_times true 2 initial_store)
  = ["R001"; "R006"] ∧
  (λ n, Reminder.id (reminder n)) <$>
    snd (_checkForTriggeredReminders true
           (fst (_checkForTriggeredReminders true initial_store)))
  = Some "R006".
Proof. split_and!; reflexivity. Qed.

(** * Further properties of the store, the poller and the controller *)

Import Session.

(** ** Odometer readings *)

Lemma updateOdometer_eq (s : Store) (v : string) (x : Z) :
  updateOdometer s v x
  = (mkStore (after_odometer v x <$> _reminders s) (_workOrders s)
       (_woCounter s) (_rCounter s),
     existsb (odometer_applies v) (_reminders s)).
Proof.
  rewrite <- (updateOdometer_changed s v x), <- (updateOdometer_reminders s v x).
  unfold updateOdometer.
  by destruct (updateOdometer_loop v x (_reminders s) false).
Qed.

Lemma odometer_applies_after (v w : string) (x : Z) (r : Reminder.t) :
  odometer_applies v (after_odometer w x r) = odometer_applies v r.
Proof. unfold after_odometer. by destruct (odometer_applies w r). Qed.

Lemma after_odometer_twice (v : string) (x y : Z) (r : Reminder.t) :
  after_odometer v y (after_odometer v x r) = after_odometer v y r.
Proof.
  unfold after_odometer at 1. rewrite odometer_applies_after.
  unfold after_odometer. by destruct (odometer_applies v r).
Qed.

Lemma after_odometer_comm (v1 v2 : string) (x1 x2 : Z) (r : Reminder.t) :
  v1 ≠ v2 →
  after_odometer v2 x2 (after_odometer v1 x1 r)
  = after_odometer v1 x1 (after_odometer v2 x2 r).
Proof.
  intros Hne. unfold after_odometer at 1 3. rewrite !odometer_applies_after.
  destruct (odometer_applies v1 r) eqn:E1, (odometer_applies v2 r) eqn:E2;
    unfold after_odometer; rewrite ?E1, ?E2; try done.
  apply odometer_applies_true in E1 as [E1 _].
  apply odometer_applies_true in E2 as [E2 _]. congruence.
Qed.

Lemma existsb_applies_after (v w : string) (x : Z) (rs : list Reminder.t) :
  existsb (odometer_applies v) (after_odometer w x <$> rs)
  = existsb (odometer_applies v) rs.
Proof.
  induction rs as [|r rs IH]; [done|]. simpl. refold_fmap.
  by rewrite odometer_applies_after, IH.
Qed.

(** X1: two readings in a row for the same vehicle leave the store, and
    answer, exactly as the second reading alone would: the last reading
    wins, and repeating a reading changes nothing. *)
Theorem updateOdometer_last_reading_wins (s : Store) (v : string) (x y : Z) :
  updateOdometer (fst (updateOdometer s v x)) v y = updateOdometer s v y.
Proof.
  rewrite !updateOdometer_eq. simpl.
  rewrite existsb_applies_after, <- list_fmap_compose. do 2 f_equal.
  apply list_fmap_ext. intros _ r _. apply after_odometer_twice.
Qed.

(** X2: readings for two different vehicles can be applied in either
    order: the resulting store is the same. *)
Theorem updateOdometer_commutes (s : Store) (v1 v2 : string) (x1 x2 : Z) :
  v1 ≠ v2 →
  fst (updateOdometer (fst (updateOdometer s v1 x1)) v2 x2)
  = fst (updateOdometer (fst (updateOdometer s v2 x2)) v1 x1).
Proof.
  intros Hne. rewrite !updateOdometer_eq. simpl.
  rewrite <- !list_fmap_compose. f_equal.
  apply list_fmap_ext. intros _ r _. by apply after_odometer_comm.
Qed.

Lemma updateOdometer_commutes_witness :
  fst (updateOdometer (fst (updateOdometer initial_store "TRK-041" 90000))
         "VAN-012" 45000)
  = fst (updateOdometer (fst (updateOdometer initial_store "VAN-012" 45000))
           "TRK-041" 90000).
Proof.
  apply (updateOdometer_commutes initial_store "TRK-041" "VAN-012").
  discriminate.
Defined.

(** X3: a reading writes nothing but [current] and [status]: with these two
    properties set aside every reminder is as before, in the same place,
    and the work orders and both counters are untouched. In particular the
    [notified] flag is never reset by telemetry. *)
Theorem updateOdometer_writes_only_telemetry (s : Store) (v : string) (x : Z) :
  let s' := fst (updateOdometer s v x) in
  without_telemetry <$> _reminders s' = without_telemetry <$> _reminders s ∧
  _workOrders s' = _workOrders s ∧
  _woCounter s' = _woCounter s ∧
  _rCounter s' = _rCounter s.
Proof.
  rewrite updateOdometer_eq. simpl. split_and!; try done.
  rewrite <- list_fmap_compose. apply list_fmap_ext. intros _ r _. simpl.
  unfold after_odometer. by destruct (odometer_applies v r).
Qed.

(** X4: the status rule is monotone in the reading: a larger reading never
    gives a less urgent status. *)
Theorem recalc_status_monotone (x y target warn : Z) :
  x <= y →
  urgency (recalc_status x target warn) <= urgency (recalc_status y target warn).
Proof.
  intros Hxy. unfold recalc_status.
  destruct (Z.geb_spec x target), (Z.geb_spec y target),
    (Z.leb_spec (target - x) warn), (Z.leb_spec (target - y) warn);
    simpl; lia.
Qed.

Lemma recalc_status_monotone_witness :
  urgency (recalc_status 83000 84000 500)
  <= urgency (recalc_status 83900 84000 500).
Proof. apply recalc_status_monotone. lia. Defined.

(** ** Tracked vehicles and reminder statistics *)

Lemma uniq_elem_of (seen l : list string) (x : string) :
  x ∈ uniq seen l ↔ x ∈ l ∧ x ∉ seen.
Proof.
  revert seen. induction l as [|y l IH]; intros seen; simpl.
  - split; [by intros ?%not_elem_of_nil|by intros [?%not_elem_of_nil _]].
  - case_bool_decide as Hy.
    + rewrite IH, elem_of_cons. split; [intros [??]; split; [by right|done]|].
      intros [[->|?] ?]; [done|by split].
    + rewrite !elem_of_cons, IH, not_elem_of_cons.
      split.
      { intros [->|(?&?&?)]; (split; [by (left + right)|done]). }
      intros [[->|?] ?]; [by left|].
      destruct (decide (x = y)) as [->|?]; [by left|by right].
Qed.

Lemma uniq_NoDup (seen l : list string) : NoDup (uniq seen l).
Proof.
  revert seen. induction l as [|y l IH]; intros seen; simpl; [constructor|].
  case_bool_decide; [apply IH|].
  apply NoDup_cons. split; [|apply IH].
  rewrite uniq_elem_of, not_elem_of_cons. intros (_ & Hne & _). by apply Hne.
Qed.

(** X5: [getUniqueVehicles] lists, without repetition, exactly the
    [vehicle] properties of the reminders; a vehicle that is only a later
    element of some [vehicles] list is not in it. *)
Theorem getUniqueVehicles_spec (s : Store) :
  NoDup (getUniqueVehicles s) ∧
  ∀ v, v ∈ getUniqueVehicles s ↔
       ∃ r : Reminder.t, r ∈ _reminders s ∧ Reminder.vehicle r = v.
Proof.
  split; [apply uniq_NoDup|]. intros v. unfold getUniqueVehicles.
  rewrite uniq_elem_of, list_elem_of_fmap. split.
  - intros [(r & -> & Hr) _]. by exists r.
  - intros (r & Hr & <-). split; [by exists r|apply not_elem_of_nil].
Qed.

(** X6: a reading for a vehicle that [getUniqueVehicles] does not list
    changes nothing and answers [false]. *)
Theorem updateOdometer_untracked (s : Store) (v : string) (x : Z) :
  v ∉ getUniqueVehicles s → updateOdometer s v x = (s, false).
Proof.
  intros Hv.
  assert (Hno : Forall (λ r, odometer_applies v r = false) (_reminders s)).
  { apply Forall_forall. intros r Hr. apply odometer_applies_false. left.
    intros Heq. apply Hv. apply (proj2 (getUniqueVehicles_spec s)). by exists r. }
  rewrite updateOdometer_eq.
  assert (Hrs : after_odometer v x <$> _reminders s = _reminders s
                ∧ existsb (odometer_applies v) (_reminders s) = false).
  { induction Hno as [|r rs Hr _ [IH1 IH2]]; [done|]. simpl. refold_fmap.
    unfold after_odometer at 1. by rewrite Hr, IH1, IH2. }
  destruct Hrs as [-> ->]. by destruct s.
Qed.

Lemma updateOdometer_untracked_witness :
  updateOdometer two_vehicle_store "TRK-099" 1000 = (two_vehicle_store, false).
Proof.
  apply updateOdometer_untracked.
  apply (bool_decide_unpack _). vm_compute. exact I.
Defined.

Lemma filter_has_status_cons (st : Status) (r : Reminder.t)
    (rs : list Reminder.t) :
  List.filter (reminder_has_status st) (r :: rs)
  = if bool_decide (Reminder.status r = st)
    then r :: List.filter (reminder_has_status st) rs
    else List.filter (reminder_has_status st) rs.
Proof. done. Qed.

Lemma filter_status_partition (rs : list Reminder.t) :
  (length (List.filter (reminder_has_status overdue) rs)
   + length (List.filter (reminder_has_status due_soon) rs)
   + length (List.filter (reminder_has_status scheduled) rs))%nat
  = length rs.
Proof.
  induction rs as [|r rs IH]; [done|].
  rewrite !filter_has_status_cons.
  destruct (Reminder.status r); repeat case_bool_decide; try done;
    cbn [length]; lia.
Qed.

(** X7: the three counts of [getReminderStats] add up to the number of
    reminders: every reminder is counted once. *)
Theorem getReminderStats_total (s : Store) :
  (n_overdue (getReminderStats s) + dueSoon (getReminderStats s)
   + n_scheduled (getReminderStats s))%nat
  = length (_reminders s).
Proof. apply filter_status_partition. Qed.

(** ** Lookups, updates and deletions *)

Lemma list_find_wid_None (id : string) (ws : list WorkOrder.t) :
  id ∉ ((λ w, WorkOrder.id w) <$> ws) →
  list_find (λ w, WorkOrder.id w = id) ws = None.
Proof.
  intros Hid. apply list_find_None, Forall_forall. intros w Hw Heq.
  apply Hid. subst id. by apply (list_elem_of_fmap_2 (λ w, WorkOrder.id w)).
Qed.

(** X8: an update or a deletion of a work order with an id that no work
    order carries returns null, respectively [false], and leaves the store
    as it was. *)
Theorem work_order_unknown_id (s : Store) (id : string) (p : WorkOrder.patch) :
  id ∉ work_order_ids s →
  updateWorkOrder s id p = (s, None) ∧ deleteWorkOrder s id = (s, false).
Proof.
  intros Hid. unfold updateWorkOrder, deleteWorkOrder, findIndexW.
  by rewrite (list_find_wid_None id (_workOrders s) Hid).
Qed.

Lemma work_order_unknown_id_witness :
  updateWorkOrder initial_store "WO-1"
    (status_and_completion (Some Completed) None) = (initial_store, None) ∧
  deleteWorkOrder initial_store "WO-1" = (initial_store, false).
Proof.
  apply work_order_unknown_id.
  apply (bool_decide_unpack _). vm_compute. exact I.
Defined.

(** X9: [deleteReminder] removes exactly one reminder, the first that
    carries the id, and keeps all the others in their order; with no such
    reminder it answers [false] and the store is as before. *)
Theorem deleteReminder_removes_first (s : Store) (id : string) :
  ((id ∉ reminder_ids s) ∧ deleteReminder s id = (s, false)) ∨
  (∃ (l1 : list Reminder.t) (r : Reminder.t) (l2 : list Reminder.t),
     _reminders s = l1 ++ r :: l2 ∧
     Reminder.id r = id ∧
     (id ∉ ((λ r, Reminder.id r) <$> l1)) ∧
     deleteReminder s id
     = (mkStore (l1 ++ l2) (_workOrders s) (_woCounter s) (_rCounter s), true)).
Proof.
  unfold deleteReminder, findIndexR.
  destruct (list_find _ (_reminders s)) as [[idx r]|] eqn:E; simpl.
  - right. apply list_find_Some in E as (Hidx & Hr & Hbefore).
    exists (take idx (_reminders s)), r, (drop (S idx) (_reminders s)).
    split_and!.
    + by rewrite take_drop_middle.
    + done.
    + intros (x & Hx & Hin)%list_elem_of_fmap.
      apply elem_of_take in Hin as (j & Hj & Hlt).
      by apply (Hbefore j x).
    + by rewrite delete_take_drop.
  - left. split; [|done].
    apply list_find_None in E.
    intros (x & -> & Hin)%list_elem_of_fmap.
    by apply (proj1 (Forall_forall _ _) E x).
Qed.

(** X10: the reminder that [addReminder] returns is the one [getReminder]
    finds under its id, and deleting it again by that id gives back the
    reminders and work orders of before; only the counter keeps its
    increment. *)
Theorem addReminder_then_delete (s : Store) (data : Reminder.fields) :
  let s' := fst (addReminder s data) in
  let r := snd (addReminder s data) in
  getReminder s' (Reminder.id r) = Some r ∧
  deleteReminder s' (Reminder.id r)
  = (mkStore (_reminders s) (_workOrders s) (_woCounter s) (_rCounter s + 1),
     true).
Proof.
  simpl. unfold getReminder, deleteReminder, findIndexR. simpl.
  by rewrite decide_True.
Qed.

(** X11: what [updateReminder] returns is what [getReminder] then finds
    under that id (null when the id is unknown), and an update changes
    neither the ids of the reminders, nor their number, nor the work orders,
    nor the counters. *)
Theorem updateReminder_then_get (s : Store) (id : string) (p : Reminder.patch) :
  let s' := fst (updateReminder s id p) in
  snd (updateReminder s id p) = getReminder s' id ∧
  reminder_ids s' = reminder_ids s ∧
  _workOrders s' = _workOrders s ∧
  _woCounter s' = _woCounter s ∧
  _rCounter s' = _rCounter s.
Proof.
  unfold updateReminder, getReminder.
  destruct (list_find _ (_reminders s)) as [[idx old]|] eqn:E; simpl.
  - pose proof E as (Hidx & Hold & Hbefore)%list_find_Some.
    split_and!; try done.
    + assert (Hfind : list_find (λ r, Reminder.id r = id)
                        (<[idx:=Reminder.merge old p]> (_reminders s))
                      = Some (idx, Reminder.merge old p)).
      { apply list_find_Some. split_and!.
        - apply list_lookup_insert_eq. by eapply lookup_lt_Some.
        - done.
        - intros j x Hj Hlt. rewrite list_lookup_insert_ne in Hj by lia.
          by apply (Hbefore j x). }
      by rewrite Hfind.
    + unfold reminder_ids. simpl. rewrite list_fmap_insert. simpl.
      apply list_insert_id. by rewrite list_lookup_fmap, Hidx; simpl; rewrite Hold.
  - by rewrite E.
Qed.

Lemma updateReminder_reminders (s : Store) (id : string) (p : Reminder.patch) :
  ((id ∉ reminder_ids s) ∧ fst (updateReminder s id p) = s) ∨
  (∃ idx old, _reminders s !! idx = Some old ∧ Reminder.id old = id ∧
              fst (updateReminder s id p)
              = mkStore (<[idx:=Reminder.merge old p]> (_reminders s))
                  (_workOrders s) (_woCounter s) (_rCounter s)).
Proof.
  unfold updateReminder.
  destruct (list_find _ (_reminders s)) as [[idx old]|] eqn:E; simpl.
  - right. apply list_find_Some in E as (Hidx & Hold & _). by exists idx, old.
  - left. split; [|done]. apply list_find_None in E.
    intros (x & -> & Hin)%list_elem_of_fmap.
    by apply (proj1 (Forall_forall _ _) E x).
Qed.


(** ** The banner, the accept dialog and the demo bell *)

(** X13: [openAcceptModal] dismisses the banner before it looks at the
    pending reminder, so it never finds one: the dialog is never displayed,
    the pending reminder is dropped, and an [acceptAndCreateWO] that follows
    creates nothing. *)
Theorem openAcceptModal_never_opens (a : AppState) :
  openAcceptModal a = mkAppState None false (acceptModal a) ∧
  ∀ (h : Host) (form : AcceptForm) (s : Store),
    accept h form (openAcceptModal a) s = (s, openAcceptModal a, None) ∧
    acceptAndCreateWO h form (_pendingNotifReminder (openAcceptModal a)) s
    = (s, None, None).
Proof. done. Qed.

Lemma list_find_is_Some_filter {A} (P : A → Prop) `{∀ x, Decision (P x)}
    (l : list A) :
  is_Some (list_find P l)
  ↔ (0 < length (List.filter (λ x, bool_decide (P x)) l))%nat.
Proof.
  induction l as [|x l IH]; simpl.
  - split; [by intros [? ?]|lia].
  - destruct (decide (P x)) as [Hx|Hx].
    + rewrite bool_decide_eq_true_2 by done. simpl. split; [lia|by eexists].
    + rewrite bool_decide_eq_false_2 by done. rewrite <- IH.
      by rewrite fmap_is_Some.
Qed.

(** X14: with [window.app] present, the demo bell shows a notification
    exactly when [getReminderStats] counts at least one overdue reminder,
    whether or not that reminder has been notified before. *)
Theorem demo_bell_iff_overdue (s : Store) :
  is_Some (demo_bell true s) ↔ (0 < n_overdue (getReminderStats s))%nat.
Proof.
  trans (is_Some (list_find (λ r : Reminder.t, Reminder.status r = overdue)
                    (_reminders s))).
  - unfold demo_bell.
    destruct (list_find _ (_reminders s)) as [[i r]|]; [|done].
    split; intros _; by eexists.
  - exact (list_find_is_Some_filter
             (λ r : Reminder.t, Reminder.status r = overdue) (_reminders s)).
Qed.

(** ** Polling cycles *)

Lemma apply_readings_failed (ds : list string) (s : Store) (c : bool) :
  apply_readings ((λ d, (d, None)) <$> ds) s c = (s, c).
Proof. induction ds as [|d ds IH]; [done|]. simpl. apply IH. Qed.

(** X15: a polling cycle in which every request failed, with at least one
    tracked device loaded, changes no telemetry and reports no change, but
    still runs the trigger check. *)
Theorem pollOdometers_all_failed (window_app : bool) (devices : list string)
    (d : string) (s : Store) :
  d ∈ devices →
  d ∈ getUniqueVehicles s →
  _pollOdometers true window_app devices (λ _, None) s
  = (fst (_checkForTriggeredReminders window_app s), false,
     snd (_checkForTriggeredReminders window_app s)).
Proof.
  intros Hd Ht. unfold _pollOdometers.
  rewrite bool_decide_eq_false_2 by (intros ->; by apply not_elem_of_nil in Hd).
  simpl.
  destruct (List.filter _ devices) as [|d' ds] eqn:E.
  - assert (Hin : In d (List.filter
                          (λ v, bool_decide (v ∈ getUniqueVehicles s)) devices)).
    { apply filter_In. split; [by apply list_elem_of_In|].
      by apply bool_decide_eq_true_2. }
    rewrite E in Hin. destruct Hin.
  - unfold poll_tail. rewrite (apply_readings_failed (d' :: ds)).
    by destruct (_checkForTriggeredReminders window_app s).
Qed.

Lemma pollOdometers_all_failed_witness :
  _pollOdometers true true ["TRK-041"; "TRK-099"] (λ _, None) initial_store
  = (fst (_checkForTriggeredReminders true initial_store), false,
     snd (_checkForTriggeredReminders true initial_store)).
Proof.
  apply (pollOdometers_all_failed true _ "TRK-041").
  - apply list_elem_of_here.
  - apply (bool_decide_unpack _). vm_compute. exact I.
Defined.

(** ** The vehicle picker *)

(** X16: on a picker without repetitions, [_toggleVehicleInPicker] flips
    the membership of the vehicle and of no other, and leaves the picker
    without repetitions. *)
Theorem toggleVehicleInPicker_flips (id : string) (picker : list string) :
  NoDup picker →
  NoDup (_toggleVehicleInPicker id picker) ∧
  (id ∈ _toggleVehicleInPicker id picker ↔ id ∉ picker) ∧
  ∀ v, v ≠ id → (v ∈ _toggleVehicleInPicker id picker ↔ v ∈ picker).
Proof.
  intros Hnd. unfold _toggleVehicleInPicker, indexOf.
  destruct (list_find _ picker) as [[idx x]|] eqn:E; simpl.
  - apply list_find_Some in E as (Hidx & -> & _).
    rewrite delete_take_drop.
    rewrite <- (take_drop_middle picker idx id Hidx) in Hnd.
    apply NoDup_app in Hnd as (Hn1 & Hdisj & Hn2).
    apply NoDup_cons in Hn2 as (Hid2 & Hn2).
    assert (Hid1 : id ∉ take idx picker).
    { intros Hin. apply (Hdisj id Hin). apply list_elem_of_here. }
    split_and!.
    + apply NoDup_app. split_and!; [done| |done].
      intros v Hv Hv'. apply (Hdisj v Hv). by apply list_elem_of_further.
    + rewrite elem_of_app. split.
      * intros [?|?]; done.
      * intros Hout. destruct Hout.
        rewrite <- (take_drop_middle picker idx id Hidx), elem_of_app.
        right. apply list_elem_of_here.
    + intros v Hv.
      rewrite <- (take_drop_middle picker idx id Hidx) at 3.
      rewrite !elem_of_app, elem_of_cons. split; [|intros [?|[?|?]]]; tauto.
  - apply list_find_None in E.
    assert (Hid : id ∉ picker).
    { intros Hin. by apply (proj1 (Forall_forall _ _) E id). }
    split_and!.
    + apply NoDup_app. split_and!; [done| |apply NoDup_singleton].
      intros v Hv ->%list_elem_of_singleton. done.
    + rewrite elem_of_app, list_elem_of_singleton. split; [done|by right].
    + intros v Hv. rewrite elem_of_app, list_elem_of_singleton. tauto.
Qed.

Lemma toggleVehicleInPicker_flips_witness :
  NoDup (_toggleVehicleInPicker "VAN-012" ["TRK-041"; "VAN-012"; "FLT-088"]).
Proof.
  apply (toggleVehicleInPicker_flips "VAN-012" ["TRK-041"; "VAN-012"; "FLT-088"]).
  apply (bool_decide_unpack _). vm_compute. exact I.
Defined.

(** ** Completing a work order and the month's figures *)

Lemma count_insert {A} (q : A → bool) (l : list A) (i : nat) (x y : A) :
  l !! i = Some x →
  (length (List.filter q (<[i:=y]> l)) + (if q x then 1 else 0)
   = length (List.filter q l) + (if q y then 1 else 0))%nat.
Proof.
  revert i. induction l as [|a l IH]; intros [|i] Hi; try done.
  - injection Hi as ->. simpl. destruct (q x), (q y); simpl; lia.
  - simpl in Hi. specialize (IH i Hi). simpl.
    destruct (q a); simpl; lia.
Qed.

Lemma filter_insert_outside {A} (q : A → bool) (l : list A) (i : nat)
    (x y : A) :
  l !! i = Some x → q x = false → q y = false →
  List.filter q (<[i:=y]> l) = List.filter q l.
Proof.
  intros Hi Hx Hy. revert i Hi.
  induction l as [|a l IH]; intros [|i] Hi; try done.
  - injection Hi as ->. simpl. by rewrite Hx, Hy.
  - simpl in Hi. simpl. by rewrite (IH i Hi).
Qed.

(** X17: what [_saveAndCompleteWO] does to the month's figures depends on
    the [date] of the work order alone, not on the completion date it
    writes. For an order dated in the current month (its [date] starts with
    the year-month prefix "YYYY-MM") the completed count goes up by one,
    unless the order was completed already; for an order dated in another
    month the completed count and the spend both stay as they were,
    whatever cost and completion date the dialog holds. *)
Theorem saveAndCompleteWO_stats (now : Now) (h : Host) (woId : string)
    (form : WOForm) (s : Store) (w : WorkOrder.t) :
  0 <= getMonth now <= 11 →
  getWorkOrder s woId = Some w →
  let s' := _saveAndCompleteWO h woId form s in
  let in_m := date_starts_with (year_month now) w in
  (completed (getWOStats now s')
   + (if in_m && bool_decide (WorkOrder.status w = Completed) then 1 else 0)
   = completed (getWOStats now s) + (if in_m then 1 else 0))%nat ∧
  (in_m = false → spend (getWOStats now s') = spend (getWOStats now s)).
Proof.
  intros Hm Hget. cbv zeta.
  unfold getWorkOrder in Hget. unfold _saveAndCompleteWO, updateWorkOrder.
  destruct (list_find _ (_workOrders s)) as [[idx old]|] eqn:E; [|done].
  simpl in Hget. injection Hget as ->.
  apply list_find_Some in E as (Hidx & _ & _).
  cbn [fst]. split.
  - unfold getWOStats. cbn [completed _workOrders].
    rewrite !filter_filter_length.
    match goal with
    | |- context [List.filter ?q (<[idx:=?y]> _)] =>
        pose proof (count_insert q _ idx w y Hidx) as Hc
    end.
    cbv beta in Hc.
    assert (Hq : ∀ x, in_month (thisMonth now) x
                      = date_starts_with (year_month now) x).
    { intros x. rewrite (in_month_starts_with _ _ (thisMonth_nonempty now)).
      by rewrite (thisMonth_year_month now Hm). }
    rewrite !Hq in Hc. unfold has_status at 2 4 in Hc. rewrite Hc. f_equal.
    unfold date_starts_with. simpl.
    destruct (WorkOrder.date w) as [d|]; [|done].
    by destruct (String.prefix (year_month now) d).
  - intros Hout. rewrite !spend_as_sum by done. cbn [_workOrders].
    unfold dated_in. rewrite (filter_insert_outside _ _ idx w); done.
Qed.

Lemma saveAndCompleteWO_stats_witness :
  spend (getWOStats (mkNow 2026 2)
           (_saveAndCompleteWO (mkHost pretty "2026-03-02") "WO-2021"
              (mkWOForm None None None None None (Some 150%float) None None
                 None None None) initial_store))
  = spend (getWOStats (mkNow 2026 2) initial_store).
Proof.
  assert (Hm : 0 <= 2 <= 11) by lia.
  exact (proj2 (saveAndCompleteWO_stats (mkNow 2026 2)
                  (mkHost pretty "2026-03-02") "WO-2021"
                  (mkWOForm None None None None None (Some 150%float) None None
                     None None None) initial_store
                  (seedWO "WO-2021" "TRK-022" "2020 Ram 2500" "Tire Rotation"
                     Open "Unassigned" "61,000" None "2026-02-18" "" "" "")
                  Hm eq_refl) eq_refl).
Defined.

(** ** Saving the reminder dialog *)

Lemma num_or_nonzero (v : option Z) (d : Z) : d ≠ 0 → num_or v d ≠ 0.
Proof. intros Hd. by destruct v as [[| |]|]. Qed.

(** What [saveReminder] does, case by case: either it rejects the dialog
    and leaves the store alone, or it builds [data] and hands it to
    [updateReminder] or [addReminder]. *)
Lemma saveReminder_cases (picker : list string) (editing : option string)
    (form : ReminderForm) (s : Store) :
  (fst (saveReminder picker editing form s) = s ∧
   (snd (saveReminder picker editing form s) = NoVehicle ∧ picker = [] ∨
    snd (saveReminder picker editing form s) = NoTask)) ∨
  (∃ (data : Reminder.fields) (first : string) (rest : list string),
     picker = first :: rest ∧
     Reminder.vehicles data = Some picker ∧
     Reminder.vehicle data = first ∧
     Reminder.task data ≠ "" ∧
     Reminder.warn data ≠ 0 ∧
     Reminder.notified data = false ∧
     (∀ i, Reminder.status data = status_of (Reminder.Make i data)) ∧
     saveReminder picker editing form s
     = match editing with
       | Some id =>
           (fst (updateReminder s id (Reminder.patch_of_fields data)), Updated)
       | None => (fst (addReminder s data), Saved)
       end).
Proof.
  unfold saveReminder. destruct picker as [|first rest]; [left; auto|].
  match goal with
  | |- context [match ?t with EmptyString => _ | String _ _ => _ end] =>
      destruct t as [|c task] eqn:Et
  end; [left; auto|].
  right.
  set (ty := triggerType_of (default "Odometer" (f_typeText form))).
  exists (Reminder.Fields (Some (first :: rest)) first (known_make first)
            (String c task) ty (default Medium (f_priority form))
            (default "" (f_assignee form)) (default "" (f_notes form))
            (num_or (f_target form) 0) (num_or (f_warn form) 500)
            (num_or (f_current form) 0)
            (if bool_decide (ty ≠ Date)
             then recalc_status (num_or (f_current form) 0)
                    (num_or (f_target form) 0) (num_or (f_warn form) 500)
             else scheduled)
            (f_date form) false), first, rest.
  split; [reflexivity|]. split; [reflexivity|]. split; [reflexivity|].
  split; [discriminate|]. split; [by apply num_or_nonzero|].
  split; [reflexivity|]. split; [|reflexivity].
  intros i. unfold status_of. cbn [Reminder.status Reminder.type Reminder.data
    Reminder.current Reminder.target Reminder.warn].
  destruct ty; by repeat case_bool_decide.
Qed.

(** X18: saving the dialog for a new reminder either rejects it (no vehicle
    picked, or no task) and leaves the store as it was, or puts one reminder
    in front: its id is the next one, its [vehicles] are the picker's, its
    [vehicle] is the first of them, its task is not empty, its warning
    distance is not 0 (an empty or zero input becomes 500), its status is
    the one that goes with its telemetry, and it is not notified. *)
Theorem saveReminder_new (picker : list string) (form : ReminderForm)
    (s : Store) :
  match snd (saveReminder picker None form s) with
  | Saved =>
      ∃ (r : Reminder.t) (first : string) (rest : list string),
        picker = first :: rest ∧
        _reminders (fst (saveReminder picker None form s)) = r :: _reminders s ∧
        Reminder.id r = reminder_id (_rCounter s) ∧
        Reminder.vehicles r = Some picker ∧
        Reminder.vehicle r = first ∧
        Reminder.task r ≠ "" ∧
        Reminder.warn r ≠ 0 ∧
        Reminder.status r = status_of r ∧
        Reminder.notified r = false
  | Updated => False
  | _ => fst (saveReminder picker None form s) = s
  end.
Proof.
  destruct (saveReminder_cases picker None form s)
    as [[Hs [[-> _]| ->]]
       |(data & first & rest & Hp & Hvs & Hv & Ht & Hw & Hn & Hst & ->)];
    try done.
  simpl. exists (Reminder.Make (reminder_id (_rCounter s)) data), first, rest.
  split_and!; done.
Qed.

(** X19: saving the dialog for an existing reminder never changes its id
    nor its [notified] flag (a reminder that was notified stays so, whatever
    is edited), nor the ids and flags of the others, nor the work orders and
    counters; with an id that no reminder carries nothing changes at all. *)
Theorem saveReminder_edit_keeps_notified (picker : list string) (id : string)
    (form : ReminderForm) (s : Store) :
  let s' := fst (saveReminder picker (Some id) form s) in
  (λ r : Reminder.t, (Reminder.id r, Reminder.notified r)) <$> _reminders s'
  = (λ r : Reminder.t, (Reminder.id r, Reminder.notified r)) <$> _reminders s ∧
  _workOrders s' = _workOrders s ∧
  _woCounter s' = _woCounter s ∧
  _rCounter s' = _rCounter s ∧
  (id ∉ reminder_ids s → s' = s).
Proof.
  destruct (saveReminder_cases picker (Some id) form s)
    as [[Hs _]|(data & first & rest & _ & _ & _ & _ & _ & _ & _ & ->)].
  { simpl. by rewrite Hs. }
  simpl.
  destruct (updateReminder_reminders s id (Reminder.patch_of_fields data))
    as [[Hout ->]|(idx & old & Hidx & Hold & ->)]; [done|]. simpl.
  split_and!; try done.
  - by apply fmap_insert_same_image with (x := old).
  - intros Hout. destruct Hout. apply list_elem_of_fmap. exists old.
    split; [done|]. by eapply list_elem_of_lookup_2.
Qed.

Lemma saveReminder_edit_keeps_notified_witness :
  fst (saveReminder ["TRK-041"] (Some "R999") two_vehicle_form initial_store)
  = initial_store.
Proof.
  apply (saveReminder_edit_keeps_notified ["TRK-041"] "R999" two_vehicle_form
           initial_store).
  apply (bool_decide_unpack _). vm_compute. exact I.
Defined.

(** ** What every session keeps *)

Lemma came_from_self (rc : Z) (old : list Reminder.t) (r : Reminder.t) :
  r ∈ old → came_from rc old r.
Proof. intros Hr. left. by exists r. Qed.

Lemma evolves_same (s s' : Store) :
  _reminders s' = _reminders s → _rCounter s' = _rCounter s → evolves s s'.
Proof.
  intros Hr Hc. split; [lia|]. rewrite Hr.
  apply Forall_forall. intros r Hr'. by apply came_from_self.
Qed.

Lemma evolves_trans (s1 s2 s3 : Store) :
  evolves s1 s2 → evolves s2 s3 → evolves s1 s3.
Proof.
  intros [Hc12 H12] [Hc23 H23]. split; [lia|].
  apply Forall_forall. intros r3 Hr3.
  destruct (proj1 (Forall_forall _ _) H23 r3 Hr3)
    as [(r2 & Hr2 & Hid & Hn)|(c & Hc & Hid)].
  - destruct (proj1 (Forall_forall _ _) H12 r2 Hr2)
      as [(r1 & Hr1 & Hid1 & Hn1)|(c & Hc & Hid1)].
    + left. exists r1. split_and!; [done|congruence|auto].
    + right. exists c. split; [done|congruence].
  - right. exists c. split; [lia|done].
Qed.

Lemma log_settled_evolves (s s' : Store) (l : list Notification) :
  evolves s s' → log_settled s l → log_settled s' l.
Proof.
  intros [Hc Hev] Hl. unfold log_settled in *.
  eapply Forall_impl; [exact Hl|]. simpl.
  intros n [(c & Hlt & Hid) Hflags]. split.
  - exists c. split; [lia|done].
  - apply Forall_forall. intros r' Hr' Heq.
    destruct (proj1 (Forall_forall _ _) Hev r' Hr')
      as [(r & Hr & Hidr & Hn)|(c' & Hc' & Hid')].
    + apply Hn. apply (proj1 (Forall_forall _ _) Hflags r Hr). congruence.
    + rewrite Heq, Hid in Hid'. apply reminder_id_inj in Hid'. lia.
Qed.

Lemma log_ok_evolves (s s' : Store) (l : list Notification) :
  evolves s s' → log_ok s l → log_ok s' l.
Proof.
  intros Hev (Hl & Hnd & Hover). split_and!; [|done..].
  by apply (log_settled_evolves s).
Qed.

(** *** The six writers of the store *)

Lemma addReminder_ok (s : Store) (data : Reminder.fields) :
  store_ok s →
  (∀ i, sound (Reminder.Make i data)) →
  store_ok (fst (addReminder s data)) ∧ evolves s (fst (addReminder s data)).
Proof.
  intros [(HR & HRnd & HW & HWnd) Hsound] Hdata. simpl.
  split; [split|].
  - unfold ids_issued. simpl. refold_fmap. split_and!.
    + apply Forall_cons. split; [exists (_rCounter s); split; [lia|done]|].
      eapply Forall_impl; [exact HR|]. simpl.
      intros r (c & Hc & Hid). exists c. split; [lia|done].
    + apply NoDup_cons. split; [|done].
      intros (r & Hid & Hr)%list_elem_of_fmap.
      destruct (proj1 (Forall_forall _ _) HR r Hr) as (c & Hc & Hidc).
      rewrite Hidc in Hid. apply reminder_id_inj in Hid. lia.
    + done.
    + done.
  - simpl. apply Forall_cons. split; [apply Hdata|done].
  - split; simpl; [lia|]. apply Forall_cons. split.
    + right. exists (_rCounter s). split; [lia|done].
    + apply Forall_forall. intros r Hr. by apply came_from_self.
Qed.

Lemma ids_issued_same_ids (s : Store) (rs : list Reminder.t) :
  (λ r, Reminder.id r) <$> rs = (λ r, Reminder.id r) <$> _reminders s →
  ids_issued s →
  ids_issued (mkStore rs (_workOrders s) (_woCounter s) (_rCounter s)).
Proof.
  intros Hids (HR & HRnd & HW & HWnd).
  unfold ids_issued. simpl. refold_fmap. split_and!; [|by rewrite Hids|done..].
  apply (Forall_fmap (λ r : Reminder.t, Reminder.id r)
           (λ i, ∃ c, c < _rCounter s ∧ i = reminder_id c)).
  rewrite Hids. by apply Forall_fmap.
Qed.

Lemma updateReminder_ok (s : Store) (id : string) (p : Reminder.patch) :
  store_ok s →
  (∀ old : Reminder.t, sound old → sound (Reminder.merge old p)) →
  (∀ old : Reminder.t, Reminder.notified old = true →
                       Reminder.notified (Reminder.merge old p) = true) →
  store_ok (fst (updateReminder s id p)) ∧
  evolves s (fst (updateReminder s id p)).
Proof.
  intros [Hids Hsound] Hp Hn.
  destruct (updateReminder_reminders s id p)
    as [[_ ->]|(idx & old & Hidx & Hold & ->)].
  { split; [done|by apply evolves_same]. }
  assert (Hin : old ∈ _reminders s) by (by eapply list_elem_of_lookup_2).
  split; [split|].
  - apply ids_issued_same_ids; [|done].
    rewrite list_fmap_insert. apply list_insert_id.
    by rewrite list_lookup_fmap, Hidx.
  - simpl. apply Forall_insert; [done|]. apply Hp.
    by apply (proj1 (Forall_forall _ _) Hsound).
  - split; simpl; [lia|]. apply Forall_insert.
    + apply Forall_forall. intros r Hr. by apply came_from_self.
    + left. exists old. split_and!; [done|done|apply Hn].
Qed.

Lemma deleteReminder_ok (s : Store) (id : string) :
  store_ok s →
  store_ok (fst (deleteReminder s id)) ∧ evolves s (fst (deleteReminder s id)).
Proof.
  intros [(HR & HRnd & HW & HWnd) Hsound]. unfold deleteReminder.
  destruct (findIndexR id (_reminders s)) as [idx|]; simpl.
  - split; [split|].
    + unfold ids_issued. simpl. refold_fmap. split_and!; [by apply Forall_delete| |done..].
      rewrite list_fmap_delete.
      eapply sublist_NoDup; [exact HRnd|apply sublist_delete].
    + simpl. by apply Forall_delete.
    + split; simpl; [lia|]. apply Forall_delete.
      apply Forall_forall. intros r Hr. by apply came_from_self.
  - split; [done|by apply evolves_same].
Qed.

Lemma after_odometer_sound (v : string) (x : Z) (r : Reminder.t) :
  sound r → sound (after_odometer v x r).
Proof.
  intros [Hst Hp]. unfold after_odometer.
  destruct (odometer_applies v r) eqn:E; [|done].
  apply odometer_applies_true in E as [_ Hty]. split; [|done].
  unfold status_of. simpl. by rewrite bool_decide_eq_false_2.
Qed.

Lemma updateOdometer_ok (s : Store) (v : string) (x : Z) :
  store_ok s →
  store_ok (fst (updateOdometer s v x)) ∧ evolves s (fst (updateOdometer s v x)).
Proof.
  intros [Hids Hsound]. rewrite updateOdometer_eq. simpl.
  assert (Hid : ∀ r, Reminder.id (after_odometer v x r) = Reminder.id r).
  { intros r. unfold after_odometer. by destruct (odometer_applies v r). }
  split; [split|].
  - apply ids_issued_same_ids; [|done].
    rewrite <- list_fmap_compose. apply list_fmap_ext. intros _ r _. apply Hid.
  - simpl. apply Forall_fmap. eapply Forall_impl; [exact Hsound|].
    intros r. apply after_odometer_sound.
  - split; simpl; [lia|]. apply Forall_fmap, Forall_forall. intros r Hr.
    left. exists r. split_and!; [done|by rewrite Hid|].
    unfold after_odometer. by destruct (odometer_applies v r).
Qed.

Lemma addWorkOrder_ok (s : Store) (data : WorkOrder.fields) :
  store_ok s →
  store_ok (fst (addWorkOrder s data)) ∧ evolves s (fst (addWorkOrder s data)).
Proof.
  intros [(HR & HRnd & HW & HWnd) Hsound]. simpl.
  split; [|by apply evolves_same].
  split; [|done]. unfold ids_issued. simpl. refold_fmap. split_and!; [done..| |].
  - apply Forall_cons. split; [exists (_woCounter s + 1); split; [lia|done]|].
    eapply Forall_impl; [exact HW|]. simpl.
    intros w (c & Hc & Hid). exists c. split; [lia|done].
  - apply NoDup_cons. split; [|done].
    intros (w & Hid & Hw)%list_elem_of_fmap.
    destruct (proj1 (Forall_forall _ _) HW w Hw) as (c & Hc & Hidc).
    rewrite Hidc in Hid. apply work_order_id_inj in Hid. lia.
Qed.

Lemma updateWorkOrder_ok (s : Store) (id : string) (p : WorkOrder.patch) :
  store_ok s →
  store_ok (fst (updateWorkOrder s id p)) ∧
  evolves s (fst (updateWorkOrder s id p)).
Proof.
  intros [(HR & HRnd & HW & HWnd) Hsound]. unfold updateWorkOrder.
  destruct (list_find _ (_workOrders s)) as [[idx old]|] eqn:E; simpl.
  - apply list_find_Some in E as (Hidx & Hold & _).
    split; [|by apply evolves_same].
    split; [|done]. unfold ids_issued. simpl. refold_fmap. split_and!; [done..| |].
    + apply Forall_insert; [done|]. simpl.
      by apply (proj1 (Forall_forall _ _) HW old), (list_elem_of_lookup_2 _ idx).
    + rewrite list_fmap_insert. simpl.
      rewrite list_insert_id; [done|]. by rewrite list_lookup_fmap, Hidx.
  - split; [done|by apply evolves_same].
Qed.

(** *** The actions *)

Lemma apply_readings_ok (readings : list (string * option Z)) (s : Store)
    (c : bool) :
  store_ok s →
  store_ok (fst (apply_readings readings s c)) ∧
  evolves s (fst (apply_readings readings s c)).
Proof.
  revert s c. induction readings as [|[v [x|]] rest IH]; intros s c Hok.
  - split; [done|by apply evolves_same].
  - simpl. destruct (updateOdometer_ok s v x Hok) as [Hok1 Hev1].
    destruct (updateOdometer s v x) as [s1 ch]. simpl in *.
    destruct (IH s1 (if ch then true else c) Hok1) as [Hok2 Hev2].
    split; [done|by apply (evolves_trans s s1)].
  - simpl. by apply IH.
Qed.

Lemma create_all_ok (mk : string → WorkOrder.fields) (vs : list string)
    (s : Store) :
  store_ok s →
  store_ok (fst (create_all mk vs s)) ∧ evolves s (fst (create_all mk vs s)).
Proof.
  revert s. induction vs as [|v vs IH]; intros s Hok.
  - split; [done|by apply evolves_same].
  - destruct (addWorkOrder_ok s (mk v) Hok) as [Hok1 Hev1].
    destruct (IH _ Hok1) as [Hok2 Hev2].
    simpl in *. destruct (create_all mk vs _) as [s2 wos]. simpl in *.
    split; [done|]. eapply evolves_trans; [exact Hev1|exact Hev2].
Qed.

Lemma saveReminder_ok (picker : list string) (editing : option string)
    (form : ReminderForm) (s : Store) :
  store_ok s →
  store_ok (fst (saveReminder picker editing form s)) ∧
  evolves s (fst (saveReminder picker editing form s)).
Proof.
  intros Hok.
  destruct (saveReminder_cases picker editing form s)
    as [[-> _]|(data & first & rest & Hp & Hvs & Hv & _ & _ & _ & Hst & ->)].
  { split; [done|by apply evolves_same]. }
  assert (Hdata : ∀ i, sound (Reminder.Make i data)).
  { intros i. split; [apply Hst|].
    unfold primary_first, Reminder.vehicle_list. simpl.
    by rewrite Hvs, Hp, Hv. }
  destruct editing as [id|]; simpl.
  - apply updateReminder_ok; [done| |done].
    intros old _. exact (Hdata (Reminder.id old)).
  - by apply addReminder_ok.
Qed.

Lemma accept_ok (h : Host) (form : AcceptForm) (a : AppState) (s : Store) :
  store_ok s →
  store_ok (fst (fst (accept h form a s))) ∧
  evolves s (fst (fst (accept h form a s))).
Proof.
  intros Hok. unfold accept, acceptAndCreateWO.
  destruct (_pendingNotifReminder a) as [r|].
  - match goal with
    | |- context [create_all ?mk ?vs s] =>
        destruct (create_all_ok mk vs s Hok) as [Hok1 Hev1];
        destruct (create_all mk vs s) as [s1 created]
    end. done.
  - split; [done|by apply evolves_same].
Qed.

Lemma saveNewWO_ok (h : Host) (form : WOForm) (s : Store) :
  store_ok s →
  store_ok (fst (_saveNewWO h form s)) ∧ evolves s (fst (_saveNewWO h form s)).
Proof.
  intros Hok. unfold _saveNewWO.
  destruct (value_or (wo_vehicle form) "") as [|c1 v];
    [split; [done|by apply evolves_same]|].
  destruct (value_or (wo_task form) "") as [|c2 t];
    [split; [done|by apply evolves_same]|].
  match goal with
  | |- context [addWorkOrder s ?d] => exact (addWorkOrder_ok s d Hok)
  end.
Qed.

Lemma triggered_is_triggered (s : Store) (r : Reminder.t) :
  r ∈ triggered s → r ∈ _reminders s ∧ is_triggered r = true.
Proof.
  intros Hr%triggered_elem_of. rewrite unnotified_overdue_eq in Hr.
  apply list_elem_of_In, filter_In in Hr as [Hr Ht].
  split; [by apply list_elem_of_In|done].
Qed.

Lemma check_ok (window_app : bool) (s : Store) (l : list Notification) :
  store_ok s →
  log_ok s l →
  store_ok (fst (_checkForTriggeredReminders window_app s)) ∧
  log_ok (fst (_checkForTriggeredReminders window_app s))
    (l ++ option_list (snd (_checkForTriggeredReminders window_app s))).
Proof.
  intros Hok Hlog. unfold _checkForTriggeredReminders.
  destruct (triggered s) as [|r rest] eqn:Ht;
    [simpl; by rewrite app_nil_r|].
  destruct window_app; [|simpl; by rewrite app_nil_r]. simpl.
  destruct Hok as [Hids Hsound].
  pose proof Hids as (HR & HRnd & _).
  destruct (triggered_is_triggered s r) as [Hr Htrig].
  { rewrite Ht. apply list_elem_of_here. }
  apply andb_true_iff in Htrig as [Hover Hnot].
  apply bool_decide_eq_true in Hover. apply negb_true_iff in Hnot.
  destruct (check_step s r rest HRnd Ht) as (_ & _ & _ & Hrs & _).
  simpl in Hrs.
  destruct (updateReminder_ok s (Reminder.id r) Reminder.notified_true
              (conj Hids Hsound)) as [Hok' Hev]; [by intros old|done|].
  split; [done|].
  destruct Hlog as (Hl & Hnd & Hgood). split_and!.
  - unfold log_settled. apply Forall_app. split.
    + by apply (log_settled_evolves s).
    + apply Forall_singleton. simpl. split.
      * destruct (proj1 (Forall_forall _ _) HR r Hr) as (c & Hc & Hid).
        exists c. split; [|done]. destruct Hev as [Hle _]. lia.
      * rewrite Hrs. apply Forall_fmap, Forall_forall. intros x _. simpl.
        rewrite mark_notified_id. intros Hx. unfold mark_notified.
        by rewrite bool_decide_eq_true_2.
  - rewrite fmap_app. apply NoDup_app. split_and!; [done| |apply NoDup_singleton].
    intros i (n & -> & Hn)%list_elem_of_fmap Hi.
    apply list_elem_of_singleton in Hi. simpl in Hi.
    destruct (proj1 (Forall_forall _ _) Hl n Hn) as [_ Hflags].
    pose proof (proj1 (Forall_forall _ _) Hflags r Hr (eq_sym Hi)) as Hn'.
    congruence.
  - apply Forall_app. split; [done|]. apply Forall_singleton. simpl.
    destruct (proj1 (Forall_forall _ _) Hsound r Hr) as [Hst _].
    rewrite Hover in Hst. unfold status_of in Hst.
    case_bool_decide as Hty; [done|]. split; [|done].
    symmetry in Hst. apply recalc_status_overdue in Hst. lia.
Qed.

Lemma pollOdometers_ok (window_app : bool) (devices : list string)
    (fetch : string → option Z) (s : Store) (l : list Notification) :
  store_ok s →
  log_ok s l →
  let res := _pollOdometers true window_app devices fetch s in
  store_ok (fst (fst res)) ∧ log_ok (fst (fst res)) (l ++ option_list (snd res)).
Proof.
  intros Hok Hlog. unfold _pollOdometers. simpl.
  case_bool_decide; [simpl; by rewrite app_nil_r|].
  destruct (List.filter _ devices) as [|d ds]; [simpl; by rewrite app_nil_r|].
  unfold poll_tail.
  destruct (apply_readings_ok ((λ d, (d, fetch d)) <$> d :: ds) s false Hok)
    as [Hok1 Hev1].
  destruct (apply_readings _ s false) as [s1 anyChanged]. simpl in Hok1, Hev1.
  pose proof (check_ok window_app s1 l Hok1 (log_ok_evolves s s1 l Hev1 Hlog))
    as [Hok2 Hlog2].
  by destruct (_checkForTriggeredReminders window_app s1) as [s2 n].
Qed.

Lemma act_ok (window_app : bool) (w : world) (o : action) :
  invariant w → invariant (act window_app w o).
Proof.
  intros [Hok Hlog]. unfold invariant.
  destruct o as [picker editing form|id|devices fetch| | | |h form|h form
                |woId form|h woId form|woId status]; simpl; try done.
  - destruct (saveReminder_ok picker editing form _ Hok) as [? Hev].
    split; [done|by apply (log_ok_evolves (store w))].
  - destruct (deleteReminder_ok _ id Hok) as [? Hev].
    split; [done|by apply (log_ok_evolves (store w))].
  - pose proof (pollOdometers_ok window_app devices fetch _ _ Hok Hlog) as H.
    simpl in H.
    by destruct (_pollOdometers true window_app devices fetch (store w))
      as [[s' ch] n].
  - destruct (accept_ok h form (app w) _ Hok) as [? Hev].
    destruct (accept h form (app w) (store w)) as [[s' a'] cr]. simpl in *.
    split; [done|by apply (log_ok_evolves (store w))].
  - destruct (saveNewWO_ok h form _ Hok) as [? Hev].
    split; [done|by apply (log_ok_evolves (store w))].
  - destruct (updateWorkOrder_ok (store w) woId
                (wo_edits None (value_or (wo_completion_date form) "") form) Hok)
      as [? Hev].
    split; [done|by apply (log_ok_evolves (store w))].
  - destruct (updateWorkOrder_ok (store w) woId
                (wo_edits (Some Completed)
                   (value_or (wo_completion_date form) (today h)) form) Hok)
      as [? Hev].
    split; [done|by apply (log_ok_evolves (store w))].
  - destruct (updateWorkOrder_ok (store w) woId
                (WorkOrder.Patch (Some status) None None None None None None
                   None) Hok) as [? Hev].
    split; [done|by apply (log_ok_evolves (store w))].
Qed.

Lemma start_ok : invariant start.
Proof.
  split; [split|].
  - unfold ids_issued. split_and!.
    + apply (Forall_fmap (λ r : Reminder.t, Reminder.id r)
               (λ i, ∃ c, c < 7 ∧ i = reminder_id c)).
      change ((λ r : Reminder.t, Reminder.id r) <$> _reminders (store start))
        with (reminder_id <$> [1; 2; 3; 4; 5; 6]).
      apply Forall_fmap.
      repeat (apply Forall_cons; split;
              [eexists; split; [|reflexivity]; lia|]).
      constructor.
    + by apply (bool_decide_unpack _).
    + apply (Forall_fmap (λ w : WorkOrder.t, WorkOrder.id w)
               (λ i, ∃ c, c <= 2024 ∧ i = work_order_id c)).
      change ((λ w : WorkOrder.t, WorkOrder.id w) <$> _workOrders (store start))
        with (work_order_id <$> [2023; 2022; 2021]).
      apply Forall_fmap.
      repeat (apply Forall_cons; split;
              [eexists; split; [|reflexivity]; lia|]).
      constructor.
    + by apply (bool_decide_unpack _).
  - repeat (apply Forall_cons; split; [by split|]). constructor.
  - split_and!; constructor.
Qed.

Lemma session_ok (window_app : bool) (actions : list action) (w : world) :
  invariant w → invariant (session window_app actions w).
Proof.
  revert w. induction actions as [|o actions IH]; intros w Hw; [done|].
  simpl. apply IH. by apply act_ok.
Qed.

(** *** What holds after every session *)

(** X20: after any sequence of actions on the store of a first run, no two
    reminders share an id and no two work orders share an id. *)
Theorem session_ids_distinct (window_app : bool) (actions : list action) :
  let s := store (session window_app actions start) in
  NoDup (reminder_ids s) ∧ NoDup (work_order_ids s).
Proof.
  destruct (session_ok window_app actions start start_ok)
    as [[(_ & HRnd & _ & HWnd) _] _].
  by split.
Qed.

(** X21: after any sequence of actions the status of every reminder is the
    one that goes with its telemetry: the rule of [updateOdometer] applied
    to its [current], [target] and [warn] for the numeric trigger types,
    and 'scheduled' for every Date reminder, which therefore never becomes
    due or overdue. *)
Theorem session_status_goes_with_telemetry (window_app : bool)
    (actions : list action) :
  Forall (λ r : Reminder.t,
            Reminder.status r
            = if bool_decide (Reminder.type r = Date) then scheduled
              else recalc_status (Reminder.current r) (Reminder.target r)
                     (Reminder.warn r))
    (_reminders (store (session window_app actions start))).
Proof.
  destruct (session_ok window_app actions start start_ok) as [[_ Hsound] _].
  eapply Forall_impl; [exact Hsound|]. by intros r [Hst _].
Qed.

(** X22: after any sequence of actions the [vehicle] of every reminder is
    the first element of its vehicle list, so the vehicles that
    [getUniqueVehicles] tracks are the first vehicles of the reminders. *)
Theorem session_vehicle_is_first (window_app : bool) (actions : list action) :
  Forall (λ r : Reminder.t,
            head (Reminder.vehicle_list r) = Some (Reminder.vehicle r))
    (_reminders (store (session window_app actions start))).
Proof.
  destruct (session_ok window_app actions start start_ok) as [[_ Hsound] _].
  eapply Forall_impl; [exact Hsound|]. by intros r [_ Hp].
Qed.

(** X23: over a whole session, whatever is edited, deleted, created or read
    from the vehicles in between, the polling cycles notify each reminder id
    at most once: the [notified] flag is never cleared. *)
Theorem session_notifies_once (window_app : bool) (actions : list action) :
  NoDup ((λ n, Reminder.id (reminder n))
           <$> log (session window_app actions start)).
Proof.
  by destruct (session_ok window_app actions start start_ok)
    as [_ (_ & Hnd & _)].
Qed.

(** X24: every notification that a polling cycle raises in a session is for
    a reminder of a numeric trigger type whose reading has reached its
    target: the amount over is never negative, and a Date reminder is never
    notified. *)
Theorem session_notifications_reached_target (window_app : bool)
    (actions : list action) :
  Forall (λ n, 0 <= milesOver n ∧ Reminder.type (reminder n) ≠ Date)
    (log (session window_app actions start)).
Proof.
  by destruct (session_ok window_app actions start start_ok)
    as [_ (_ & _ & Hgood)].
Qed.

(** A session on the store of a first run: a two-vehicle reminder is saved,
    three polling cycles read 91000 for TRK-041, the notified reminder R001
    is edited, and a fourth cycle runs. R007, R001 and R006 (all High, in
    store order) are notified once each, and the fourth cycle raises
    nothing. *)
Example session_log :
  (λ n, (Reminder.id (reminder n), milesOver n))
    <$> log (session true
               [DoSaveReminder ["TRK-041"; "VAN-012"] None two_vehicle_form;
                DoPoll ["TRK-041"] (λ _, Some 91000);
                DoPoll ["TRK-041"] (λ _, Some 91000);
                DoPoll ["TRK-041"] (λ _, Some 91000);
                DoSaveReminder ["TRK-041"] (Some "R001") two_vehicle_form;
                DoPoll ["TRK-041"] (λ _, Some 91000)]
               start)
  = [("R007", 1000); ("R001", 7000); ("R006", 11000)].
Proof. reflexivity. Qed.

(** *** The costs that sessions store *)

Lemma cost_or_null_priced (c : option float) (w : WorkOrder.t) :
  WorkOrder.cost w = cost_or_null c → priced w.
Proof.
  unfold priced, cost_or_null, falsy, is_nan. intros ->.
  destruct c as [x|]; [|done].
  by destruct (PrimFloat.eqb x 0) eqn:E0, (PrimFloat.eqb x x) eqn:Ex.
Qed.

Lemma updateReminder_workOrders (s : Store) (id : string) (p : Reminder.patch) :
  _workOrders (fst (updateReminder s id p)) = _workOrders s.
Proof.
  by destruct (updateReminder_reminders s id p)
    as [[_ ->]|(idx & old & _ & _ & ->)].
Qed.

Lemma apply_readings_workOrders (readings : list (string * option Z))
    (s : Store) (c : bool) :
  _workOrders (fst (apply_readings readings s c)) = _workOrders s.
Proof.
  revert s c. induction readings as [|[v [x|]] rest IH]; intros s c;
    [done| |by apply IH].
  simpl. rewrite updateOdometer_eq. by rewrite IH.
Qed.

Lemma check_workOrders (window_app : bool) (s : Store) :
  _workOrders (fst (_checkForTriggeredReminders window_app s)) = _workOrders s.
Proof.
  unfold _checkForTriggeredReminders.
  destruct (triggered s) as [|r rest]; [done|].
  destruct window_app; [|done]. apply updateReminder_workOrders.
Qed.

Lemma pollOdometers_workOrders (window_app : bool) (devices : list string)
    (fetch : string → option Z) (s : Store) :
  _workOrders (fst (fst (_pollOdometers true window_app devices fetch s)))
  = _workOrders s.
Proof.
  unfold _pollOdometers. simpl. case_bool_decide; [done|].
  destruct (List.filter _ devices) as [|d ds]; [done|].
  unfold poll_tail.
  pose proof (apply_readings_workOrders ((λ d, (d, fetch d)) <$> d :: ds) s false)
    as H1.
  destruct (apply_readings _ s false) as [s1 ch]. simpl in H1.
  pose proof (check_workOrders window_app s1) as H2.
  destruct (_checkForTriggeredReminders window_app s1) as [s2 n]. simpl in *.
  by rewrite H2.
Qed.

Lemma updateWorkOrder_priced (s : Store) (id : string) (p : WorkOrder.patch) :
  (∀ w : WorkOrder.t, priced w → priced (WorkOrder.merge w p)) →
  Forall priced (_workOrders s) →
  Forall priced (_workOrders (fst (updateWorkOrder s id p))).
Proof.
  intros Hp Hs. unfold updateWorkOrder.
  destruct (list_find _ (_workOrders s)) as [[idx old]|] eqn:E; [|done].
  apply list_find_Some in E as (Hidx & _ & _). simpl.
  apply Forall_insert; [done|]. apply Hp.
  by apply (proj1 (Forall_forall _ _) Hs), (list_elem_of_lookup_2 _ idx).
Qed.

Lemma act_priced (window_app : bool) (w : world) (o : action) :
  Forall priced (_workOrders (store w)) →
  Forall priced (_workOrders (store (act window_app w o))).
Proof.
  intros Hs.
  destruct o as [picker editing form|id|devices fetch| | | |h form|h form
                |woId form|h woId form|woId status]; simpl; try done.
  - destruct (saveReminder_cases picker editing form (store w))
      as [[-> _]|(data & first & rest & _ & _ & _ & _ & _ & _ & _ & ->)];
      [done|].
    destruct editing as [id|]; simpl; [|done].
    by rewrite updateReminder_workOrders.
  - unfold deleteReminder. by destruct (findIndexR id _).
  - pose proof (pollOdometers_workOrders window_app devices fetch (store w))
      as H.
    destruct (_pollOdometers true window_app devices fetch (store w))
      as [[s' ch] n]. simpl in *. by rewrite H.
  - unfold accept, acceptAndCreateWO.
    destruct (_pendingNotifReminder (app w)) as [r|]; [|done].
    match goal with
    | |- context [create_all ?mk ?vs (store w)] =>
        pose proof (create_all_spec mk vs (store w)) as (Hd & _ & Hw & _);
        destruct (create_all mk vs (store w)) as [s1 created]
    end.
    simpl in *. rewrite Hw. apply Forall_app. split; [|done].
    apply Forall_rev, Forall_forall. intros x Hx.
    assert (Hin : WorkOrder.data x ∈ (λ w, WorkOrder.data w) <$> created)
      by (by apply (list_elem_of_fmap_2 (λ w, WorkOrder.data w))).
    rewrite Hd in Hin. apply list_elem_of_fmap in Hin as (v & Hv & _).
    unfold priced. by rewrite Hv.
  - unfold _saveNewWO.
    destruct (value_or (wo_vehicle form) "") as [|c1 v]; [done|].
    destruct (value_or (wo_task form) "") as [|c2 t]; [done|].
    simpl. apply Forall_cons. split; [|done].
    by apply (cost_or_null_priced (wo_cost form)).
  - apply updateWorkOrder_priced; [|done].
    intros x _. by apply (cost_or_null_priced (wo_cost form)).
  - apply updateWorkOrder_priced; [|done].
    intros x _. by apply (cost_or_null_priced (wo_cost form)).
  - by apply updateWorkOrder_priced.
Qed.

(** X25: after any sequence of actions on the store of a first run, the
    cost of every work order is null or a number other than 0 and NaN:
    the dialogs turn an empty, zero or unreadable cost into null, and an
    accepted reminder creates its orders without a cost. *)
Theorem session_costs_priced (window_app : bool) (actions : list action) :
  Forall priced (_workOrders (store (session window_app actions start))).
Proof.
  assert (H : ∀ w, Forall priced (_workOrders (store w)) →
                   Forall priced
                     (_workOrders (store (session window_app actions w)))).
  { induction actions as [|o actions IH]; intros w Hw; [done|].
    simpl. apply IH. by apply act_priced. }
  apply H. repeat constructor.
Qed.
